(** * PDF metadata viewer: a shallow embedding of
      [src/components/PDFMetadataViewer.tsx] and of the [PasswordDialog]
      component it renders.

    The development follows the layout of the source:
    - [JS]          : JavaScript strings as sequences of UTF-16 code units and
                      the few [String.prototype] methods the viewer calls;
    - [TextDecoder] : the platform's UTF-8 decoder ([new TextDecoder().decode]);
    - [Formatter]   : [formatFileSize] and [formatPDFDate];
    - [Viewer]      : the component state, [extractMetadata] and the handlers;
    - [Dialog]      : the password dialog;
    - [App]         : both components together, with extractions that are
                      suspended at their [await]s and resumed in any order;
    - [Spec]        : the vocabulary of the properties;
    - [Examples]    : sample files and a sample world.

    The properties follow the definitions, in the order of the modules. *)

From Stdlib Require Import List NArith ZArith Bool String Ascii Lia.
From Stdlib.Strings Require Import Byte.
From Stdlib Require Import DecimalString.
Import ListNotations.

Set Implicit Arguments.

(** [length] is the length of a list throughout. *)
Abbreviation length := Datatypes.length (only parsing).

(* ================================================================== *)
(** ** JavaScript strings *)
(* ================================================================== *)

Module JS.

(** A JavaScript string is a sequence of UTF-16 code units. *)
Definition codeunit := N.
Definition jsstring := list codeunit.

(** A string literal of the source (all of them are ASCII). *)
Definition js (s : string) : jsstring :=
  map N_of_ascii (list_ascii_of_string s).

Fixpoint eqb (a b : jsstring) : bool :=
  match a, b with
  | [], [] => true
  | x :: a', y :: b' => N.eqb x y && eqb a' b'
  | _, _ => false
  end.

(** [s.startsWith(needle)], the matching step of [includes]. *)
Fixpoint startsWith (needle s : jsstring) : bool :=
  match needle, s with
  | [], _ => true
  | _ :: _, [] => false
  | a :: needle', b :: s' => N.eqb a b && startsWith needle' s'
  end.

(** [s.includes(needle)]: [needle] occurs at some position of [s]. *)
Fixpoint includes (needle s : jsstring) : bool :=
  startsWith needle s
  || match s with
     | [] => false
     | _ :: s' => includes needle s'
     end.

(** Truthiness of a string: every string but the empty one. *)
Definition truthy (s : jsstring) : bool :=
  match s with
  | [] => false
  | _ :: _ => true
  end.

(** Truthiness of [string | undefined] (an optional parameter or a
    state variable declared without initial value). *)
Definition truthy_opt (o : option jsstring) : bool :=
  match o with
  | Some s => truthy s
  | None => false
  end.

(** [o || dflt] for [o : string | undefined]. *)
Definition or_else (o : option jsstring) (dflt : jsstring) : jsstring :=
  match o with
  | Some s => if truthy s then s else dflt
  | None => dflt
  end.

(** The decimal rendering of a non-negative integral number, as a
    template literal produces it. *)
Definition Number_toString (n : N) : jsstring :=
  js (NilZero.string_of_uint (N.to_uint n)).

(** [\d] of a regular expression without the [u] flag: ASCII digits. *)
Definition isDigit (c : codeunit) : bool :=
  (48 <=? c)%N && (c <=? 57)%N.

End JS.

Import JS.

(* ================================================================== *)
(** ** The platform's UTF-8 decoder *)
(* ================================================================== *)

Module TextDecoder.

Local Open Scope N_scope.

(** The decoder's variables (Encoding Standard, UTF-8 decoder). *)
Record state := mkState {
  code_point : N;
  bytes_seen : N;
  bytes_needed : N;
  lower_boundary : N;
  upper_boundary : N
}.

Definition initial : state := mkState 0 0 0 0x80 0xBF.

Definition REPLACEMENT : N := 0xFFFD.

Definition between (lo b hi : N) : bool := (lo <=? b) && (b <=? hi).

(** The handler when no continuation byte is awaited: the code points it
    emits and the next state. *)
Definition lead (b : N) : list N * state :=
  if b <=? 0x7F then ([b], initial)
  else if between 0xC2 b 0xDF then
    ([], mkState (N.land b 0x1F) 0 1 0x80 0xBF)
  else if between 0xE0 b 0xEF then
    ([], mkState (N.land b 0xF) 0 2
                 (if b =? 0xE0 then 0xA0 else 0x80)
                 (if b =? 0xED then 0x9F else 0xBF))
  else if between 0xF0 b 0xF4 then
    ([], mkState (N.land b 0x7) 0 3
                 (if b =? 0xF0 then 0x90 else 0x80)
                 (if b =? 0xF4 then 0x8F else 0xBF))
  else ([REPLACEMENT], initial).

(** The handler on one byte.  A byte outside the awaited range ends the
    sequence with U+FFFD (the decoder is not fatal) and is processed
    again from the initial state. *)
Definition handler (st : state) (b : N) : list N * state :=
  if bytes_needed st =? 0 then lead b
  else if negb (between (lower_boundary st) b (upper_boundary st)) then
    let (out, st') := lead b in (REPLACEMENT :: out, st')
  else
    let cp := N.lor (N.shiftl (code_point st) 6) (N.land b 0x3F) in
    let seen := bytes_seen st + 1 in
    if seen =? bytes_needed st then ([cp], initial)
    else ([], mkState cp seen (bytes_needed st) 0x80 0xBF).

(** The code points of a byte sequence; an unfinished sequence at the
    end of the input yields U+FFFD. *)
Fixpoint run (st : state) (bs : list byte) : list N :=
  match bs with
  | [] => if bytes_needed st =? 0 then [] else [REPLACEMENT]
  | b :: bs' =>
      let (out, st') := handler st (Byte.to_N b) in
      out ++ run st' bs'
  end.

(** A code point as UTF-16 code units. *)
Definition utf16 (cp : N) : jsstring :=
  if cp <=? 0xFFFF then [cp]
  else
    let c := cp - 0x10000 in
    [0xD800 + N.shiftr c 10; 0xDC00 + N.land c 0x3FF].

(** [ignoreBOM] is false: a leading U+FEFF is dropped. *)
Definition strip_BOM (cps : list N) : list N :=
  match cps with
  | cp :: cps' => if cp =? 0xFEFF then cps' else cps
  | [] => []
  end.

(** [new TextDecoder().decode(bytes)]. *)
Definition decode (bs : list byte) : jsstring :=
  flat_map utf16 (strip_BOM (run initial bs)).

(** [Uint8Array.prototype.slice(0, n)]. *)
Definition slice0 (n : nat) (bs : list byte) : list byte := firstn n bs.

End TextDecoder.

(* ================================================================== *)
(** ** What the platform supplies besides decoding *)
(* ================================================================== *)

(** [Date.prototype.toLocaleString] depends on the viewer's locale and time
    zone; both ways the source builds a [Date] are taken from the platform. *)
Record Platform := mkPlatform {
  (** [new Date(isoString).toLocaleString()] *)
  Date_of_string_toLocaleString : jsstring -> jsstring;
  (** [new Date(milliseconds).toLocaleString()] *)
  Date_of_number_toLocaleString : Z -> jsstring
}.

(* ================================================================== *)
(** ** Formatter: [formatFileSize] and [formatPDFDate] *)
(* ================================================================== *)

Module Formatter.

Local Open Scope N_scope.

(** *** Numbers

    [file.size] is a non-negative integer.  [bytes / Math.pow(k, i)] divides
    it by a power of two, which binary floating point does without rounding,
    so the scaled value is the rational [bytes / k^i]. *)

(** [Math.floor(Math.log(x) / Math.log(base))] for [base] a power of two,
    with the quotient of logarithms taken over the reals: it is
    [log2 x / log2 base], whose floor is [floor (log2 x)] divided by the
    integer [log2 base]. *)
Definition floor_log (x base : N) : N := N.log2 x / N.log2 base.

Definition digit (d : N) : codeunit := 48 + d.

(** [(num / den).toFixed(2)]: the integer [n] for which [n / 100] is closest
    to the value, the larger one on a tie, printed with two fraction
    digits. *)
Definition toFixed2_hundredths (num den : N) : N :=
  (200 * num + den) / (2 * den).

Definition toFixed2 (num den : N) : jsstring :=
  let n := toFixed2_hundredths num den in
  Number_toString (n / 100) ++ js "." ++ [digit ((n mod 100) / 10); digit (n mod 10)].

(** Splits a decimal string at its first ["."]. *)
Fixpoint split_dot (s : jsstring) : jsstring * option jsstring :=
  match s with
  | [] => ([], None)
  | c :: t =>
      if c =? 46 then ([], Some t)
      else let (a, b) := split_dot t in (c :: a, b)
  end.

Fixpoint drop_zeros (s : jsstring) : jsstring :=
  match s with
  | c :: t => if c =? 48 then drop_zeros t else s
  | [] => []
  end.

(** [`${parseFloat(s)}`] for [s] a decimal string [d..d.dd]: the number
    read back prints with the shortest digits that identify it, which for a
    decimal of at most 15 significant digits is the decimal itself without
    the trailing zeros of its fraction. *)
Definition parseFloat_toString (s : jsstring) : jsstring :=
  match split_dot s with
  | (ip, None) => ip
  | (ip, Some f) =>
      match rev (drop_zeros (rev f)) with
      | [] => ip
      | f' => ip ++ js "." ++ f'
      end
  end.

Definition k : N := 1024.

Definition sizes : list jsstring := [js "Bytes"; js "KB"; js "MB"; js "GB"].

(** [`${sizes[i]}`]: an index past the table reads [undefined]. *)
Definition sizes_at (i : N) : jsstring :=
  match nth_error sizes (N.to_nat i) with
  | Some u => u
  | None => js "undefined"
  end.

Definition formatFileSize (bytes : N) : jsstring :=
  if bytes =? 0 then js "0 Bytes"
  else
    let i := floor_log bytes k in
    parseFloat_toString (toFixed2 bytes (k ^ i)) ++ js " " ++ sizes_at i.

(** *** Dates *)

(** The rest of [s] after the literal [lit], when [s] starts with it. *)
Fixpoint expect (lit s : jsstring) : option jsstring :=
  match lit, s with
  | [], _ => Some s
  | a :: lit', b :: s' => if a =? b then expect lit' s' else None
  | _ :: _, [] => None
  end.

(** [\d{n}]: exactly [n] digits and the rest. *)
Fixpoint digits (n : nat) (s : jsstring) : option (jsstring * jsstring) :=
  match n with
  | O => Some ([], s)
  | S n' =>
      match s with
      | c :: t =>
          if isDigit c then
            match digits n' t with
            | Some (d, r) => Some (c :: d, r)
            | None => None
            end
          else None
      | [] => None
      end
  end.

(** The groups of
    [/D:(\d{4})(\d{2})(\d{2})(\d{2})(\d{2})(\d{2})([-+]\d{2}'\d{2}')?/];
    the last one is [undefined] when the offset is missing. *)
Record DateMatch := mkDateMatch {
  year : jsstring;
  month : jsstring;
  day : jsstring;
  hour : jsstring;
  minute : jsstring;
  second : jsstring;
  timezone : option jsstring
}.

(** [([-+]\d{2}'\d{2}')?] at the head of [s]. *)
Definition timezone_here (s : jsstring) : option jsstring :=
  match s with
  | c :: t =>
      if (c =? 45) || (c =? 43) then
        match digits 2 t with
        | Some (hh, r1) =>
            match expect (js "'") r1 with
            | Some r2 =>
                match digits 2 r2 with
                | Some (mm, r3) =>
                    match expect (js "'") r3 with
                    | Some _ => Some (c :: hh ++ js "'" ++ mm ++ js "'")
                    | None => None
                    end
                | None => None
                end
            | None => None
            end
        | None => None
        end
      else None
  | [] => None
  end.

(** The pattern at the head of [s]. *)
Definition date_here (s : jsstring) : option DateMatch :=
  match expect (js "D:") s with
  | None => None
  | Some r0 =>
    match digits 4 r0 with
    | None => None
    | Some (y, r1) =>
      match digits 2 r1 with
      | None => None
      | Some (mo, r2) =>
        match digits 2 r2 with
        | None => None
        | Some (d, r3) =>
          match digits 2 r3 with
          | None => None
          | Some (h, r4) =>
            match digits 2 r4 with
            | None => None
            | Some (mi, r5) =>
              match digits 2 r5 with
              | None => None
              | Some (se, r6) =>
                  Some (mkDateMatch y mo d h mi se (timezone_here r6))
              end
            end
          end
        end
      end
    end
  end.

(** [dateStr.match(/D:.../)]: the pattern at the first position where it
    matches (the expression is not anchored). *)
Fixpoint date_match (s : jsstring) : option DateMatch :=
  match date_here s with
  | Some m => Some m
  | None =>
      match s with
      | [] => None
      | _ :: t => date_match t
      end
  end.

(** [tz.replace(/'/g, ":").slice(0, -1)] *)
Definition timezone_iso (tz : jsstring) : jsstring :=
  removelast (map (fun c => if c =? 39 then 58 else c) tz).

Definition formatPDFDate (P : Platform) (dateStr : jsstring) : jsstring :=
  match date_match dateStr with
  | Some m =>
      Date_of_string_toLocaleString P
        (year m ++ js "-" ++ month m ++ js "-" ++ day m ++ js "T"
         ++ hour m ++ js ":" ++ minute m ++ js ":" ++ second m
         ++ match timezone m with
            | Some tz => if truthy tz then timezone_iso tz else js "Z"
            | None => js "Z"
            end)
  | None => dateStr
  end.

End Formatter.

(* ================================================================== *)
(** ** The viewer component *)
(* ================================================================== *)

Module Viewer.

Import Formatter.

(** *** Data *)

(** The attributes of a [File] the viewer reads; its bytes are read through
    [arrayBuffer], which may fail. *)
Record File := mkFile {
  name : jsstring;
  size : N;
  type : jsstring;
  lastModified : Z
}.

(** [PDFInfoDictionary]: an object used as a map from field name to string,
    enumerated in insertion order. *)
Definition PDFInfoDictionary := list (jsstring * jsstring).

(** [infoDict[key] = value]: an existing key keeps its place and gets the
    new value, a new key goes last. *)
Fixpoint dict_set (key value : jsstring) (d : PDFInfoDictionary) : PDFInfoDictionary :=
  match d with
  | [] => [(key, value)]
  | (k', v') :: d' =>
      if JS.eqb k' key then (k', value) :: d'
      else (k', v') :: dict_set key value d'
  end.

(** [infoDict[key]] *)
Fixpoint dict_get (key : jsstring) (d : PDFInfoDictionary) : option jsstring :=
  match d with
  | [] => None
  | (k', v') :: d' => if JS.eqb k' key then Some v' else dict_get key d'
  end.

(** [string | null | undefined] *)
Inductive Nullable :=
| JNull
| JUndefined
| JString (s : jsstring).

Record PDFMetadata := mkPDFMetadata {
  fileName : jsstring;
  fileSize : jsstring;
  fileType : jsstring;
  isPDF : bool;
  pdfVersion : Nullable;
  infoDict : PDFInfoDictionary
}.

(** The seven [useState] variables of [PDFMetadataViewer]. *)
Record State := mkViewer {
  metadata : option PDFMetadata;
  isLoading : bool;
  error : option jsstring;
  currentFile : option File;
  showPasswordDialog : bool;
  passwordError : option jsstring;
  attempts : N
}.

Definition initial : State :=
  mkViewer None false None None false None 0.

(** A call of one of the state setters. *)
Inductive Action :=
| setMetadata (m : PDFMetadata)
| setIsLoading (b : bool)
| setError (e : option jsstring)
| setCurrentFile (f : option File)
| setShowPasswordDialog (b : bool)
| setPasswordError (e : option jsstring)
| setAttempts (n : N)
| setAttempts_incr.  (* [setAttempts((prev) => prev + 1)] *)

Definition apply (s : State) (a : Action) : State :=
  match a with
  | setMetadata m =>
      mkViewer (Some m) (isLoading s) (error s) (currentFile s)
               (showPasswordDialog s) (passwordError s) (attempts s)
  | setIsLoading b =>
      mkViewer (metadata s) b (error s) (currentFile s)
               (showPasswordDialog s) (passwordError s) (attempts s)
  | setError e =>
      mkViewer (metadata s) (isLoading s) e (currentFile s)
               (showPasswordDialog s) (passwordError s) (attempts s)
  | setCurrentFile f =>
      mkViewer (metadata s) (isLoading s) (error s) f
               (showPasswordDialog s) (passwordError s) (attempts s)
  | setShowPasswordDialog b =>
      mkViewer (metadata s) (isLoading s) (error s) (currentFile s)
               b (passwordError s) (attempts s)
  | setPasswordError e =>
      mkViewer (metadata s) (isLoading s) (error s) (currentFile s)
               (showPasswordDialog s) e (attempts s)
  | setAttempts n =>
      mkViewer (metadata s) (isLoading s) (error s) (currentFile s)
               (showPasswordDialog s) (passwordError s) n
  | setAttempts_incr =>
      mkViewer (metadata s) (isLoading s) (error s) (currentFile s)
               (showPasswordDialog s) (passwordError s) (attempts s + 1)
  end.

(** The setter calls of one synchronous stretch of code, applied together. *)
Definition apply_all (s : State) (seg : list Action) : State :=
  fold_left apply seg s.

(** *** The outside world of one extraction *)

(** A value that was thrown or that a promise rejected with: an object,
    of which the handlers read [instanceof Error], [name] and [message]
    (the latter two are [undefined] or a string). *)
Record Thrown := mkThrown {
  instanceof_Error : bool;
  thrown_name : option jsstring;
  thrown_message : option jsstring
}.

(** [new Error(message)] *)
Definition new_Error (message : jsstring) : Thrown :=
  mkThrown true (Some (js "Error")) (Some message).

(** [`${err.message}`]: a missing message prints as ["undefined"]. *)
Definition message_of (e : Thrown) : jsstring :=
  match thrown_message e with
  | Some m => m
  | None => js "undefined"
  end.

(** A value of the library's [info] object. *)
Inductive InfoValue :=
| InfoString (s : jsstring)
| InfoOther.

Inductive ReadOutcome :=
| ReadResolves (bytes : list byte)
| ReadRejects (e : Thrown).

(** [pdfDoc.getMetadata()]; [None] stands for a result without [info]. *)
Inductive MetadataOutcome :=
| MetadataResolves (info : option (list (jsstring * InfoValue)))
| MetadataRejects (e : Thrown).

(** [pdfjsLib.getDocument({data, password}).promise] *)
Inductive LoadOutcome :=
| LoadResolves (numPages : N) (getMetadata : MetadataOutcome)
| LoadRejects (e : Thrown).

Record World := mkWorld {
  platform : Platform;
  arrayBuffer : File -> ReadOutcome;
  getDocument : list byte -> option jsstring -> LoadOutcome
}.

(** *** The header probe (lines 101-103) *)

(** [\d+], greedy: the digits at the head of [s] and the rest. *)
Fixpoint many_digits (s : jsstring) : jsstring * jsstring :=
  match s with
  | c :: t =>
      if isDigit c then let (d, r) := many_digits t in (c :: d, r)
      else ([], s)
  | [] => ([], [])
  end.

(** [/%PDF-(\d+\.\d+)/] at the head of [s]: the captured group.  A shorter
    first run of digits is followed by a digit, never by the dot, so the
    greedy run is the only one that can match. *)
Definition version_here (s : jsstring) : option jsstring :=
  match expect (js "%PDF-") s with
  | None => None
  | Some r =>
      match many_digits r with
      | ([], _) => None
      | (major, r1) =>
          match expect (js ".") r1 with
          | None => None
          | Some r2 =>
              match many_digits r2 with
              | ([], _) => None
              | (minor, _) => Some (major ++ js "." ++ minor)
              end
          end
      end
  end.

(** [header.match(/%PDF-(\d+\.\d+)/)?.[1]] *)
Fixpoint version_match (s : jsstring) : option jsstring :=
  match version_here s with
  | Some v => Some v
  | None =>
      match s with
      | [] => None
      | _ :: t => version_match t
      end
  end.

(** The two results of the probe, [isPDF] and [pdfVersion]. *)
Definition detectPDFHeader (bytes : list byte) : bool * Nullable :=
  let header := TextDecoder.decode (TextDecoder.slice0 8 bytes) in
  let isPDF := includes (js "%PDF") header in
  let pdfVersion :=
    if isPDF then
      match version_match header with
      | Some v => JString v
      | None => JUndefined
      end
    else JNull in
  (isPDF, pdfVersion).

(** *** [extractMetadata] (lines 72-200)

    The function is asynchronous: it runs up to an [await], is suspended,
    and is resumed when the awaited promise settles.  Its embedding is the
    list of its synchronous stretches, each the list of the setter calls it
    makes, in program order; which stretches there are follows from what
    the world answers.  The three suspension points are
    [await file.arrayBuffer()], [await loadingTask.promise] and
    [await pdfDoc.getMetadata()]. *)

(** The [finally] block (line 198). *)
Definition finally_block : list Action := [setIsLoading false].

(** The outer [catch] (lines 185-196). *)
Definition outer_catch (password : option jsstring) (err : Thrown) : list Action :=
  if truthy_opt password then
    [setPasswordError
       (if instanceof_Error err then thrown_message err
        else Some (js "Failed to decrypt PDF"))]
  else
    [setError
       (Some (js "Error processing file: "
              ++ (if instanceof_Error err then message_of err
                  else js "Unknown error")))].

(** [err.name === "PasswordException"] *)
Definition is_PasswordException (err : Thrown) : bool :=
  match thrown_name err with
  | Some n => JS.eqb n (js "PasswordException")
  | None => false
  end.

(** The inner [catch] (lines 168-184) and what follows it: a thrown error
    goes through the outer [catch]; every path ends in the [finally]. *)
Definition inner_catch (file : File) (password : option jsstring)
    (err : Thrown) : list Action :=
  if is_PasswordException err then
    if truthy_opt password then
      [setAttempts_incr]
      ++ outer_catch password (new_Error (js "Invalid password. Please try again."))
      ++ finally_block
    else
      [setCurrentFile (Some file); setShowPasswordDialog true] ++ finally_block
  else
    outer_catch password
      (new_Error (js "Error processing PDF: "
                  ++ or_else (thrown_message err) (js "Unknown error")))
    ++ finally_block.

(** The body of the [forEach] over [Object.entries(metadata.info)]
    (lines 125-139). *)
Definition merge_entry (P : Platform) (d : PDFInfoDictionary)
    (entry : jsstring * InfoValue) : PDFInfoDictionary :=
  let (key, value) := entry in
  match value with
  | InfoString v =>
      if JS.eqb key (js "CreationDate") then
        dict_set key (formatPDFDate P v ++ js " (when the PDF was first created)") d
      else if JS.eqb key (js "ModDate") then
        dict_set key (formatPDFDate P v ++ js " (when the PDF content was last modified)") d
      else dict_set key v d
  | InfoOther => d
  end.

(** Lines 105-154: the dictionary of a document that was loaded. *)
Definition build_infoDict (P : Platform) (file : File) (textContent : jsstring)
    (encryptedMatch : bool) (numPages : N)
    (info : option (list (jsstring * InfoValue))) : PDFInfoDictionary :=
  let infoDict :=
    [(js "Last Modified",
      Date_of_number_toLocaleString P (lastModified file)
      ++ js " (last time the file was saved or moved on your computer)")] in
  let infoDict :=
    match info with
    | Some entries => fold_left (merge_entry P) entries infoDict
    | None => infoDict
    end in
  let infoDict :=
    dict_set (js "Page Count") (Number_toString numPages ++ js " pages") infoDict in
  let infoDict :=
    dict_set (js "Security Status")
      (if encryptedMatch
       then js "Encrypted (this PDF has security restrictions)"
       else js "Not Encrypted (this PDF has no security restrictions)")
      infoDict in
  let taggedMatch := includes (js "/MarkInfo") textContent in
  dict_set (js "Accessibility")
    (if taggedMatch
     then js "Tagged PDF (accessible for screen readers)"
     else js "Not Tagged (limited accessibility support)")
    infoDict.

Definition extractMetadata (W : World) (file : File)
    (password : option jsstring) : list (list Action) :=
  [setIsLoading true; setError None]
  :: match arrayBuffer W file with
     | ReadRejects err => [outer_catch password err ++ finally_block]
     | ReadResolves uint8Array =>
         let textContent := TextDecoder.decode uint8Array in
         let encryptedMatch := includes (js "/Encrypt") textContent in
         if encryptedMatch && negb (truthy_opt password) then
           [[setCurrentFile (Some file); setShowPasswordDialog true;
             setIsLoading false] ++ finally_block]
         else
           let (isPDF, pdfVersion) := detectPDFHeader uint8Array in
           []
           :: match getDocument W uint8Array password with
              | LoadRejects err => [inner_catch file password err]
              | LoadResolves numPages getMetadata =>
                  []
                  :: match getMetadata with
                     | MetadataRejects err => [inner_catch file password err]
                     | MetadataResolves info =>
                         let fullMetadata :=
                           mkPDFMetadata (name file) (formatFileSize (size file))
                             (type file) isPDF pdfVersion
                             (build_infoDict (platform W) file textContent
                                encryptedMatch numPages info) in
                         [[setMetadata fullMetadata;
                           setShowPasswordDialog false;
                           setCurrentFile None;
                           setPasswordError None;
                           setAttempts 0] ++ finally_block]
                     end
              end
     end.

(** An extraction that nothing interleaves with: all its stretches in
    order. *)
Definition extract (W : World) (file : File) (password : option jsstring)
    (s : State) : State :=
  fold_left apply_all (extractMetadata W file password) s.

(** *** Handlers *)

(** [handlePasswordSubmit] (lines 202-206), for the [currentFile] of the
    state it is called in. *)
Definition handlePasswordSubmit (W : World) (s : State) (password : jsstring)
    : list (list Action) :=
  match currentFile s with
  | Some file => extractMetadata W file (Some password)
  | None => []
  end.

(** [handleDrop] and [handleFileChange] (lines 208-224), for the file the
    event carries. *)
Definition handleDrop (W : World) (file : File) : list (list Action) :=
  extractMetadata W file None.

(** The dialog's [onClose] (lines 318-323). *)
Definition onClose : list Action :=
  [setShowPasswordDialog false; setCurrentFile None;
   setPasswordError None; setAttempts 0].

(** *** What is rendered (lines 277-313) *)

(** [{error && <panel>}]: the text of the top-level error panel. *)
Definition error_panel (s : State) : option jsstring :=
  match error s with
  | Some e => if truthy e then Some e else None
  | None => None
  end.

(** [MetadataGrid]: the entries with a truthy value. *)
Definition MetadataGrid (data : list (jsstring * jsstring))
    : list (jsstring * jsstring) :=
  filter (fun kv => truthy (snd kv)) data.

Definition basic_information (m : PDFMetadata) : list (jsstring * jsstring) :=
  [(js "File Name", fileName m);
   (js "File Size", fileSize m);
   (js "File Type", fileType m);
   (js "PDF Version",
    if isPDF m then
      (match pdfVersion m with
       | JString v => if truthy v then v else js "Unknown"
       | _ => js "Unknown"
       end) ++ js " (PDF specification version)"
    else js "Not a PDF")].

(** [{metadata && ...}]: the two grids, the second only for a dictionary
    with a key. *)
Definition metadata_grids (s : State)
    : option (list (jsstring * jsstring) * option (list (jsstring * jsstring))) :=
  match metadata s with
  | Some m =>
      Some (MetadataGrid (basic_information m),
            match infoDict m with
            | [] => None
            | _ :: _ => Some (MetadataGrid (infoDict m))
            end)
  | None => None
  end.

End Viewer.

(* ================================================================== *)
(** ** The password dialog *)
(* ================================================================== *)

Module Dialog.

(** The three [useState] variables of [PasswordDialog]. *)
Record State := mkDialog {
  password : jsstring;
  showPassword : bool;
  isSubmitting : bool
}.

Definition initial : State := mkDialog [] false false.

(** [disabled={!password || isSubmitting}] of the submit button.  The form
    has this one submit button, so while it is disabled the form is not
    submitted, by a click or from the keyboard. *)
Definition submit_disabled (d : State) : bool :=
  negb (truthy (password d)) || isSubmitting d.

(** [disabled={isSubmitting}] of the cancel button. *)
Definition cancel_disabled (d : State) : bool := isSubmitting d.

(** [onChange] of the input. *)
Definition onChange (d : State) (value : jsstring) : State :=
  mkDialog value (showPassword d) (isSubmitting d).

(** [onClick] of the eye button. *)
Definition toggleShowPassword (d : State) : State :=
  mkDialog (password d) (negb (showPassword d)) (isSubmitting d).

(** [handleSubmit], up to its [await]: the dialog is marked as submitting
    and [onSubmit] is called with the password entered. *)
Definition handleSubmit_begin (d : State) : State * jsstring :=
  (mkDialog (password d) (showPassword d) true, password d).

(** [handleSubmit], after [onSubmit] has completed: the password is cleared
    and, in the [finally], the submitting mark removed. *)
Definition handleSubmit_end (d : State) : State :=
  mkDialog [] (showPassword d) false.

End Dialog.

(* ================================================================== *)
(** ** Both components, with suspended extractions *)
(* ================================================================== *)

Module App.

Import Viewer.

(** Who called [extractMetadata]. *)
Inductive Origin :=
| FromDropZone
| FromPrompt.

(** An extraction suspended at an [await]: the stretches it has still to
    run. *)
Record Task := mkTask {
  remaining : list (list Action);
  origin : Origin
}.

(** A call of [extractMetadata], as recorded in the history of a run. *)
Record Call := mkCall {
  call_file : File;
  call_password : option jsstring;
  call_origin : Origin
}.

Record Sys := mkSys {
  view : Viewer.State;
  dialog : Dialog.State;
  tasks : list Task;
  calls : list Call
}.

Definition initial : Sys := mkSys Viewer.initial Dialog.initial [] [].

(** What the user does, and the resumption of a suspended extraction. *)
Inductive Event :=
| DropFile (file : File) (W : World)      (* drop or file picker *)
| TypePassword (value : jsstring)
| ToggleShowPassword
| SubmitForm (W : World)
| ClickCancel
| Resume (i : nat).                       (* the i-th suspended extraction *)

(** What happens once an extraction has run its last stretch: the
    [handleSubmit] that awaited it goes on. *)
Definition completed (o : Origin) (d : Dialog.State) : Dialog.State :=
  match o with
  | FromPrompt => Dialog.handleSubmit_end d
  | FromDropZone => d
  end.

(** Runs the next stretch of a task, on top of the other suspended tasks
    [others]. *)
Definition advance (segs : list (list Action)) (o : Origin)
    (v : Viewer.State) (d : Dialog.State) (before after : list Task)
    : Viewer.State * Dialog.State * list Task :=
  match segs with
  | [] => (v, completed o d, before ++ after)
  | [seg] => (apply_all v seg, completed o d, before ++ after)
  | seg :: rest => (apply_all v seg, d, before ++ mkTask rest o :: after)
  end.

Definition step (sys : Sys) (ev : Event) : Sys :=
  match ev with
  | DropFile file W =>
      let '(v, d, ts) :=
        advance (handleDrop W file) FromDropZone
                (view sys) (dialog sys) (tasks sys) [] in
      mkSys v d ts (calls sys ++ [mkCall file None FromDropZone])
  | TypePassword value =>
      if showPasswordDialog (view sys) then
        mkSys (view sys) (Dialog.onChange (dialog sys) value)
              (tasks sys) (calls sys)
      else sys
  | ToggleShowPassword =>
      if showPasswordDialog (view sys) then
        mkSys (view sys) (Dialog.toggleShowPassword (dialog sys))
              (tasks sys) (calls sys)
      else sys
  | SubmitForm W =>
      if showPasswordDialog (view sys)
         && negb (Dialog.submit_disabled (dialog sys)) then
        let (d1, pw) := Dialog.handleSubmit_begin (dialog sys) in
        let '(v, d, ts) :=
          advance (handlePasswordSubmit W (view sys) pw) FromPrompt
                  (view sys) d1 (tasks sys) [] in
        mkSys v d ts
              (calls sys
               ++ match currentFile (view sys) with
                  | Some file => [mkCall file (Some pw) FromPrompt]
                  | None => []
                  end)
      else sys
  | ClickCancel =>
      if showPasswordDialog (view sys)
         && negb (Dialog.cancel_disabled (dialog sys)) then
        mkSys (apply_all (view sys) onClose) (dialog sys)
              (tasks sys) (calls sys)
      else sys
  | Resume i =>
      match nth_error (tasks sys) i with
      | Some t =>
          let '(v, d, ts) :=
            advance (remaining t) (origin t) (view sys) (dialog sys)
                    (firstn i (tasks sys)) (skipn (S i) (tasks sys)) in
          mkSys v d ts (calls sys)
      | None => sys
      end
  end.

(** The state after the events of a run, from the mounted components. *)
Definition run (evs : list Event) : Sys := fold_left step evs initial.

End App.

(* ================================================================== *)
(** ** Vocabulary of the properties *)
(* ================================================================== *)

Module Spec.

Import Viewer.

(** A platform for examples: dates print as the text or the number of
    milliseconds they were built from, between brackets. *)
Definition sample_platform : Platform :=
  mkPlatform (fun iso => js "[" ++ iso ++ js "]")
             (fun ms => js "[" ++ Number_toString (Z.to_N ms) ++ js "]").

(** *** Decoder *)

(** A UTF-8 sequence in progress still owes one code unit. *)
Definition owed (st : TextDecoder.state) : nat :=
  if (TextDecoder.bytes_needed st =? 0)%N then 0%nat else 1%nat.

(** The number of UTF-16 code units of a list of code points. *)
Definition units (cps : list N) : nat :=
  length (flat_map TextDecoder.utf16 cps).

(** *** Header probe *)

(** The bytes of an ASCII literal. *)
Definition bytes_of (s : string) : list byte := list_byte_of_string s.

(** The buffer starts with the bytes of [lit]. *)
Fixpoint starts_with (lit bytes : list byte) : bool :=
  match lit, bytes with
  | [], _ => true
  | _ :: _, [] => false
  | a :: lit', b :: bytes' => Byte.eqb a b && starts_with lit' bytes'
  end.

(** The header the probe looks at: the first eight bytes, decoded. *)
Definition header (bytes : list byte) : jsstring :=
  TextDecoder.decode (TextDecoder.slice0 8 bytes).

(** *** Formatter *)

(** The table of units as a number of entries. *)
Definition table_size : N := N.of_nat (length Formatter.sizes).

(** The shortest decimal rendering of [n / 100]: the integer part, then
    the fraction without trailing zeros, if there is one. *)
Definition hundredths_toString (n : N) : jsstring :=
  Number_toString (n / 100)
  ++ (if (n mod 100 =? 0)%N then []
      else js "." ++ [Formatter.digit ((n mod 100) / 10)]
           ++ (if (n mod 10 =? 0)%N then [] else [Formatter.digit (n mod 10)])).

(** [n / 100] is the value [num / den] rounded to two decimal places, a
    tie going up: [n <= 100 * num / den + 1/2 < n + 1]. *)
Definition rounds_to_hundredths (num den n : N) : Prop :=
  (2 * n * den <= 200 * num + den < 2 * (n + 1) * den)%N.

(** The date pattern occurs in [s]: ["D:"] followed by fourteen digits
    (what may follow them is optional in the pattern). *)
Definition matches_pattern (s : jsstring) : Prop :=
  exists pre ds post,
    s = pre ++ js "D:" ++ ds ++ post
    /\ length ds = 14%nat
    /\ forallb isDigit ds = true.

(** *** Extraction *)

(** How one extraction ends, in the terms of the error kinds: success, one
    of the two recoverable password errors, or one of the two terminal
    failures (with what was thrown). *)
Inductive Outcome :=
| Succeeded
| EncryptedNeedsPassword
| InvalidPassword
| ParseFailure (e : Thrown)
| ReadFailure (e : Thrown).

(** The kind of a failure of the library. *)
Definition library_failure (password : option jsstring) (e : Thrown) : Outcome :=
  if is_PasswordException e then
    if truthy_opt password then InvalidPassword else EncryptedNeedsPassword
  else ParseFailure e.

(** The outcome of [extractMetadata W file password], from what the world
    answers. *)
Definition outcome (W : World) (file : File) (password : option jsstring)
    : Outcome :=
  match arrayBuffer W file with
  | ReadRejects e => ReadFailure e
  | ReadResolves bytes =>
      if includes (js "/Encrypt") (TextDecoder.decode bytes)
         && negb (truthy_opt password)
      then EncryptedNeedsPassword
      else
        match getDocument W bytes password with
        | LoadRejects e => library_failure password e
        | LoadResolves _ (MetadataRejects e) => library_failure password e
        | LoadResolves _ (MetadataResolves _) => Succeeded
        end
  end.

(** The message of a read failure, as the outer [catch] reads it. *)
Definition read_message (e : Thrown) : jsstring :=
  if instanceof_Error e then message_of e else js "Unknown error".

(** The message of the library, or the text that stands for a missing
    one. *)
Definition library_message (e : Thrown) : jsstring :=
  or_else (thrown_message e) (js "Unknown error").

(** The state after a password was submitted for the pending file of [s]
    and the extraction has run to its end. *)
Definition submit_password (W : World) (password : jsstring) (s : State) : State :=
  fold_left apply_all (handlePasswordSubmit W s password) s.

(** The setter calls of an extraction, all stretches together. *)
Definition setter_calls (W : World) (file : File) (password : option jsstring)
    : list Action :=
  List.concat (extractMetadata W file password).

(** The texts of the two computed entries. *)
Definition ENCRYPTED : jsstring :=
  js "Encrypted (this PDF has security restrictions)".
Definition NOT_ENCRYPTED : jsstring :=
  js "Not Encrypted (this PDF has no security restrictions)".
Definition TAGGED : jsstring :=
  js "Tagged PDF (accessible for screen readers)".
Definition NOT_TAGGED : jsstring :=
  js "Not Tagged (limited accessibility support)".

(** *** Invariants of the viewer *)

(** A file is pending exactly when the password dialog is shown. *)
Definition pending_iff_prompt (s : State) : Prop :=
  currentFile s <> None <-> showPasswordDialog s = true.

(** From [s] to [s'] the result is left as it is, or it is set in a state
    without pending file and with the dialog hidden. *)
Definition result_rule (s s' : State) : Prop :=
  metadata s' = metadata s
  \/ (metadata s' <> None
      /\ currentFile s' = None /\ showPasswordDialog s' = false).

(** A stretch of setter calls that keeps both. *)
Definition seg_ok (seg : list Action) : Prop :=
  forall s,
    (pending_iff_prompt s -> pending_iff_prompt (apply_all s seg))
    /\ result_rule s (apply_all s seg).

Definition task_ok (t : App.Task) : Prop := Forall seg_ok (App.remaining t).

(** The viewer satisfies its invariant and so will every suspended
    extraction leave it. *)
Definition sys_ok (sys : App.Sys) : Prop :=
  pending_iff_prompt (App.view sys) /\ Forall task_ok (App.tasks sys).

(** A call made by the password prompt carries a non-empty password. *)
Definition prompt_call_ok (c : App.Call) : Prop :=
  App.call_origin c = App.FromPrompt ->
  exists pw, App.call_password c = Some pw /\ pw <> [].

(** *** The probes on raw bytes *)

(** The bytes of a buffer, each read as the code unit of the same value. *)
Definition raw (bytes : list byte) : jsstring := map Byte.to_N bytes.

(** A text of ASCII characters only. *)
Definition ascii_text (s : jsstring) : Prop := Forall (fun c => (c < 128)%N) s.

(** One value stands for every code unit that is not ASCII. *)
Definition marker : N := 128.

Definition mark (c : N) : N := if (c <? 128)%N then c else marker.

Definition starts_with_marker (l : list N) : bool :=
  match l with
  | c :: _ => (c =? marker)%N
  | [] => false
  end.

(** A text with every run of markers reduced to one marker. *)
Fixpoint squeeze (l : list N) : list N :=
  match l with
  | [] => []
  | c :: t =>
      if (c =? marker)%N && starts_with_marker (squeeze t) then squeeze t
      else c :: squeeze t
  end.

(** What holds of the decoder's state between two bytes: while a sequence
    is in progress the awaited range lies within the continuation bytes,
    and the code point collected so far cannot end below U+0080. *)
Definition sound (st : TextDecoder.state) : Prop :=
  TextDecoder.bytes_needed st = 0%N
  \/ ((128 <= TextDecoder.lower_boundary st)%N
      /\ (TextDecoder.upper_boundary st <= 191)%N
      /\ (TextDecoder.bytes_seen st < TextDecoder.bytes_needed st)%N
      /\ ((TextDecoder.bytes_needed st - TextDecoder.bytes_seen st = 1)%N ->
          (2 <= TextDecoder.code_point st)%N)
      /\ (TextDecoder.code_point st = 0%N ->
          (144 <= TextDecoder.lower_boundary st)%N)).

(** The marker a sequence in progress still owes. *)
Definition owed_marker (st : TextDecoder.state) : list N :=
  if (TextDecoder.bytes_needed st =? 0)%N then [] else [marker].

(** *** Extractions, continued *)

(** The state an extraction leaves when it ends at the password prompt
    for [file], started in [s]. *)
Definition awaiting_password (file : File) (s : State) : State :=
  mkViewer (metadata s) false None (Some file) true
           (passwordError s) (attempts s).

(** The state after the passwords [pws] were submitted one after the
    other, each extraction run to its end. *)
Definition submit_passwords (W : World) (pws : list jsstring) (s : State) : State :=
  fold_left (fun s pw => submit_password W pw s) pws s.

(** The library refuses [pw] for [bytes] as a wrong password. *)
Definition wrong_password (W : World) (bytes : list byte) (pw : jsstring) : Prop :=
  pw <> []
  /\ exists e, getDocument W bytes (Some pw) = LoadRejects e
               /\ is_PasswordException e = true.

(** *** The dictionary of the library's entries *)





(** *** Suspended extractions *)

(** The last of the stretches turns the loading indicator off. *)
Fixpoint settles (segs : list (list Action)) : Prop :=
  match segs with
  | [] => False
  | [last] => forall s, isLoading (apply_all s last) = false
  | _ :: rest => settles rest
  end.

(** The indicator is off when nothing is suspended, and every suspended
    extraction will turn it off. *)
Definition loading_ok (sys : App.Sys) : Prop :=
  (App.tasks sys = [] -> isLoading (App.view sys) = false)
  /\ Forall (fun t => settles (App.remaining t)) (App.tasks sys).

Definition from_prompt (t : App.Task) : bool :=
  match App.origin t with
  | App.FromPrompt => true
  | App.FromDropZone => false
  end.

(** One while the dialog is marked as submitting, none otherwise. *)
Definition submitting_count (d : Dialog.State) : nat :=
  if Dialog.isSubmitting d then 1%nat else 0%nat.

(** The number of suspended extractions the prompt started. *)
Definition prompt_tasks (sys : App.Sys) : nat :=
  length (filter from_prompt (App.tasks sys)).

(** *** Dates *)

(** The six fields of a date, each of its length and all of digits. *)
Definition date_fields (y mo d h mi se : jsstring) : Prop :=
  length y = 4%nat /\ length mo = 2%nat /\ length d = 2%nat
  /\ length h = 2%nat /\ length mi = 2%nat /\ length se = 2%nat
  /\ forallb isDigit y = true /\ forallb isDigit mo = true
  /\ forallb isDigit d = true /\ forallb isDigit h = true
  /\ forallb isDigit mi = true /\ forallb isDigit se = true.

(** [D:YYYYMMDDHHmmSS] *)
Definition pdf_date (y mo d h mi se : jsstring) : jsstring :=
  js "D:" ++ y ++ mo ++ d ++ h ++ mi ++ se.

(** [YYYY-MM-DDTHH:mm:SS] *)
Definition iso_date (y mo d h mi se : jsstring) : jsstring :=
  y ++ js "-" ++ mo ++ js "-" ++ d ++ js "T" ++ h ++ js ":" ++ mi ++ js ":" ++ se.

(** A sign and two fields of two digits. *)
Definition offset_fields (sign : N) (hh mm : jsstring) : Prop :=
  (sign = 43%N \/ sign = 45%N)
  /\ length hh = 2%nat /\ length mm = 2%nat
  /\ forallb isDigit hh = true /\ forallb isDigit mm = true.

End Spec.


(** ** Sample inputs *)

Module Examples.

Import Viewer Spec.

Definition plain_pdf : File :=
  mkFile (js "plain.pdf") 1536 (js "application/pdf") 1700000000000.

Definition locked_pdf : File :=
  mkFile (js "locked.pdf") 1048576 (js "application/pdf") 1700000000001.

Definition broken_pdf : File :=
  mkFile (js "broken.pdf") 20 (js "application/pdf") 1700000000002.

Definition plain_bytes : list byte :=
  bytes_of "%PDF-1.7 1 0 obj << /Type /Catalog >> endobj".

Definition locked_bytes : list byte :=
  bytes_of "%PDF-1.6 trailer << /Encrypt 5 0 R /MarkInfo 6 0 R >>".

Definition broken_bytes : list byte := bytes_of "%PDF-1.4 no objects".

Definition PasswordException : Thrown :=
  mkThrown true (Some (js "PasswordException")) (Some (js "No password given")).

Definition InvalidPDFException : Thrown :=
  mkThrown true (Some (js "InvalidPDFException"))
           (Some (js "Invalid PDF structure.")).

(** The files are told apart by their names; the locked one opens with
    the password ["secret"] only, the broken one never. *)
Definition world : World :=
  mkWorld sample_platform
    (fun file =>
       if JS.eqb (name file) (js "locked.pdf") then ReadResolves locked_bytes
       else if JS.eqb (name file) (js "broken.pdf") then ReadResolves broken_bytes
       else ReadResolves plain_bytes)
    (fun bytes password =>
       if starts_with (bytes_of "%PDF-1.6") bytes then
         match password with
         | Some pw =>
             if JS.eqb pw (js "secret")
             then LoadResolves 3
                    (MetadataResolves
                       (Some [(js "Title", InfoString (js "Locked"));
                              (js "CreationDate",
                               InfoString (js "D:20230115103000-05'00'"))]))
             else LoadRejects PasswordException
         | None => LoadRejects PasswordException
         end
       else if starts_with (bytes_of "%PDF-1.4") bytes then
         LoadRejects InvalidPDFException
       else LoadResolves 1 (MetadataResolves None)).

(** The result of extracting the locked file with its password. *)
Definition locked_result : PDFMetadata :=
  mkPDFMetadata (js "locked.pdf") (js "1 MB") (js "application/pdf")
    true (JString (js "1.6"))
    (build_infoDict sample_platform locked_pdf
       (TextDecoder.decode locked_bytes) true 3
       (Some [(js "Title", InfoString (js "Locked"));
              (js "CreationDate", InfoString (js "D:20230115103000-05'00'"))])).

(** A plain file is dropped and extracted; then the locked file is
    dropped and its extraction stops at the password prompt. *)
Definition drop_plain_then_locked : list App.Event :=
  [App.DropFile plain_pdf world; App.Resume 0; App.Resume 0; App.Resume 0;
   App.DropFile locked_pdf world; App.Resume 0].

(** The locked file is dropped, a wrong password is typed and submitted,
    and the extraction it starts runs to its end; then the form is
    submitted once more with the field empty. *)
Definition wrong_password_session : list App.Event :=
  [App.DropFile locked_pdf world; App.Resume 0;
   App.TypePassword (js "guess"); App.SubmitForm world;
   App.Resume 0; App.Resume 0;
   App.SubmitForm world].

(** A file named like the plain one whose bytes have no marker, and a
    world in which the library asks for a password for it all the same. *)
Definition quiet_world : World :=
  mkWorld sample_platform
    (fun _ => ReadResolves plain_bytes)
    (fun _ password =>
       match password with
       | Some pw =>
           if JS.eqb pw (js "secret")
           then LoadResolves 2 (MetadataResolves None)
           else LoadRejects PasswordException
       | None => LoadRejects PasswordException
       end).

End Examples.
(* ================================================================== *)
(** * Properties *)
(* ================================================================== *)

(** ** Strings *)

Section StringFacts.

Lemma eqb_refl (a : jsstring) : JS.eqb a a = true.
Proof.
  induction a as [|x a IH]; simpl; [reflexivity|].
  now rewrite N.eqb_refl, IH.
Qed.

Lemma eqb_eq (a b : jsstring) : JS.eqb a b = true <-> a = b.
Proof.
  split; [|intros ->; apply eqb_refl].
  revert b; induction a as [|x a IH]; intros [|y b]; simpl; try discriminate; auto.
  intros H; apply andb_prop in H as [Hx Hab].
  apply N.eqb_eq in Hx; f_equal; auto.
Qed.

Lemma eqb_neq (a b : jsstring) : JS.eqb a b = false <-> a <> b.
Proof.
  split.
  - intros H E; apply eqb_eq in E; congruence.
  - intros H; destruct (JS.eqb a b) eqn:E; [|reflexivity].
    apply eqb_eq in E; contradiction.
Qed.

Lemma startsWith_app (needle s : jsstring) :
  startsWith needle s = true <-> exists post, s = needle ++ post.
Proof.
  revert s; induction needle as [|a needle IH]; intros s; simpl.
  - split; [intros _; now exists s | reflexivity].
  - destruct s as [|b s].
    + split; [discriminate | intros [post H]; discriminate].
    + rewrite andb_true_iff, N.eqb_eq, IH.
      split.
      * intros [-> [post ->]]; now exists post.
      * intros [post H]; injection H as -> ->; split; [reflexivity | now exists post].
Qed.

(** [includes] is the substring relation. *)
Lemma includes_app (needle s : jsstring) :
  includes needle s = true <-> exists pre post, s = pre ++ needle ++ post.
Proof.
  induction s as [|c s IH].
  - simpl; rewrite orb_false_r, startsWith_app; split.
    + intros [post H]; now exists [], post.
    + intros [pre [post H]].
      destruct pre; [now exists post | discriminate].
  - simpl; rewrite orb_true_iff, startsWith_app, IH; split.
    + intros [[post H] | [pre [post H]]].
      * now exists [], post.
      * exists (c :: pre), post; simpl; now rewrite H.
    + intros [[|c' pre] [post H]].
      * left; now exists post.
      * right; injection H as _ H; now exists pre, post.
Qed.

(** A string no longer than the substring it includes is that substring. *)
Lemma includes_short (needle s : jsstring) :
  includes needle s = true -> (length s <= length needle)%nat -> s = needle.
Proof.
  intros H Hlen; apply includes_app in H as [pre [post ->]].
  rewrite !length_app in Hlen.
  destruct pre; [|simpl in Hlen; lia].
  destruct post; [|simpl in Hlen; lia].
  simpl; now rewrite app_nil_r.
Qed.

End StringFacts.

(** ** The decoder never yields more code units than it read bytes *)

Section DecoderFacts.

Import Spec.

Import TextDecoder.
Local Open Scope N_scope.

Lemma units_app (a b : list N) : units (a ++ b) = (units a + units b)%nat.
Proof. unfold units; now rewrite flat_map_app, length_app. Qed.

Lemma units_cons (c : N) (l : list N) :
  units (c :: l) = (length (utf16 c) + units l)%nat.
Proof. unfold units; simpl; now rewrite length_app. Qed.

Lemma utf16_length (cp : N) : (1 <= length (utf16 cp) <= 2)%nat.
Proof. unfold utf16; destruct (cp <=? 0xFFFF); simpl; lia. Qed.

Lemma utf16_BMP (cp : N) : cp <= 0xFFFF -> utf16 cp = [cp].
Proof. intros H; unfold utf16; apply N.leb_le in H; now rewrite H. Qed.

Lemma lead_budget (b : N) :
  (units (fst (lead b)) + owed (snd (lead b)) = 1)%nat.
Proof.
  unfold lead.
  destruct (b <=? 0x7F) eqn:E1.
  { apply N.leb_le in E1; simpl; rewrite units_cons, utf16_BMP by lia.
    reflexivity. }
  destruct (between 0xC2 b 0xDF); [reflexivity|].
  destruct (between 0xE0 b 0xEF); [reflexivity|].
  destruct (between 0xF0 b 0xF4); reflexivity.
Qed.

Lemma handler_budget (st : state) (b : N) :
  (units (fst (handler st b)) + owed (snd (handler st b)) <= 1 + owed st)%nat.
Proof.
  unfold handler, owed at 2.
  destruct (bytes_needed st =? 0) eqn:E0.
  { rewrite lead_budget; lia. }
  destruct (negb (between (lower_boundary st) b (upper_boundary st))).
  { pose proof (lead_budget b) as L.
    destruct (lead b) as [out st']; cbn [fst snd] in *.
    rewrite units_cons; change (length (utf16 REPLACEMENT)) with 1%nat.
    lia. }
  cbv zeta.
  destruct (bytes_seen st + 1 =? bytes_needed st); simpl.
  - rewrite units_cons.
    pose proof (utf16_length
      (N.lor (N.shiftl (code_point st) 6) (N.land b 0x3F))).
    unfold units, owed; simpl; lia.
  - unfold owed; simpl; rewrite E0; simpl; lia.
Qed.

Lemma run_length (bs : list byte) : forall st,
  (units (run st bs) <= length bs + owed st)%nat.
Proof.
  induction bs as [|b bs IH]; intros st; simpl.
  - unfold owed; destruct (bytes_needed st =? 0); vm_compute; lia.
  - pose proof (handler_budget st (Byte.to_N b)) as Hb.
    destruct (handler st (Byte.to_N b)) as [out st']; simpl in Hb.
    rewrite units_app; specialize (IH st'); lia.
Qed.

Lemma strip_BOM_units (cps : list N) : (units (strip_BOM cps) <= units cps)%nat.
Proof.
  destruct cps as [|c cps]; simpl; [lia|].
  destruct (c =? 0xFEFF); [|lia].
  rewrite units_cons; lia.
Qed.

Lemma decode_length (bs : list byte) : (length (decode bs) <= length bs)%nat.
Proof.
  unfold decode; fold (units (strip_BOM (run initial bs))).
  pose proof (strip_BOM_units (run initial bs)).
  pose proof (run_length bs initial) as R; unfold owed in R; simpl in R.
  lia.
Qed.

(** The probed header has at most eight code units. *)
Lemma header_length (bytes : list byte) :
  (length (decode (slice0 8 bytes)) <= 8)%nat.
Proof.
  pose proof (decode_length (slice0 8 bytes)) as H.
  unfold slice0 in *; pose proof (firstn_le_length 8 bytes); lia.
Qed.

End DecoderFacts.

(** ** The header probe *)

Section HeaderProbe.

Import Viewer Spec.

Lemma detectPDFHeader_unfold (bytes : list byte) :
  detectPDFHeader bytes =
  (includes (js "%PDF") (header bytes),
   if includes (js "%PDF") (header bytes) then
     match version_match (header bytes) with
     | Some v => JString v
     | None => JUndefined
     end
   else JNull).
Proof. reflexivity. Qed.

(** Eight bytes that decode to a text containing ["%PDF-1.7"] decode to
    exactly that text. *)
Lemma header_is_17 (bytes : list byte) :
  includes (js "%PDF-1.7") (header bytes) = true ->
  header bytes = js "%PDF-1.7".
Proof.
  intros H; apply includes_short; [exact H|].
  apply header_length.
Qed.

(** C5, as the code has it: a buffer whose first eight bytes decode to a
    header containing ["%PDF-1.7"] is reported as a PDF of version ["1.7"];
    a buffer whose decoded header contains ["%PDF"] nowhere is reported as
    not a PDF, with version [null].  The probe looks for the marker
    anywhere in the header, not only at its start. *)
Theorem detectPDFHeader_by_content (bytes : list byte) :
  (includes (js "%PDF-1.7") (header bytes) = true ->
   detectPDFHeader bytes = (true, JString (js "1.7")))
  /\ (includes (js "%PDF") (header bytes) = false ->
      detectPDFHeader bytes = (false, JNull)).
Proof.
  split; intros H; rewrite detectPDFHeader_unfold.
  - rewrite (header_is_17 _ H); reflexivity.
  - now rewrite H.
Qed.

Lemma detectPDFHeader_by_content_witness :
  detectPDFHeader (bytes_of "%PDF-1.7 and the rest of the file")
    = (true, JString (js "1.7"))
  /\ detectPDFHeader (bytes_of "GIF89a, not a PDF") = (false, JNull).
Proof.
  split.
  - apply (proj1 (detectPDFHeader_by_content
                    (bytes_of "%PDF-1.7 and the rest of the file"))).
    reflexivity.
  - apply (proj2 (detectPDFHeader_by_content (bytes_of "GIF89a, not a PDF"))).
    reflexivity.
Defined.

(** C5 as stated fails: a buffer that does not start with ["%PDF"] but has
    the marker within its first eight bytes is reported as a PDF (and its
    version is [undefined], the eight bytes holding no full version). *)
Lemma detectPDFHeader_not_at_start :
  starts_with (bytes_of "%PDF") (bytes_of "x%PDF-1.4") = false
  /\ detectPDFHeader (bytes_of "x%PDF-1.4") = (true, JUndefined).
Proof. split; reflexivity. Qed.

(** A byte-order mark before the marker is dropped by the decoder: such a
    buffer does not start with ["%PDF"] either and is a PDF for the
    probe. *)
Lemma detectPDFHeader_after_BOM :
  let bytes := [xef; xbb; xbf] ++ bytes_of "%PDF-1.7" in
  starts_with (bytes_of "%PDF") bytes = false
  /\ detectPDFHeader bytes = (true, JUndefined).
Proof. split; reflexivity. Qed.

End HeaderProbe.

(** ** The size formatter *)

Section SizeFormatter.

Import Formatter Spec.
Local Open Scope N_scope.

Lemma k_pow (i : N) : k ^ i = 2 ^ (10 * i).
Proof. unfold k; change 1024 with (2 ^ 10); now rewrite N.pow_mul_r. Qed.

(** [floor_log bytes k] is the exponent [i] with [k^i <= bytes < k^(i+1)],
    the floor of the real [log bytes / log k]. *)
Lemma floor_log_spec (bytes : N) :
  0 < bytes ->
  k ^ floor_log bytes k <= bytes < k ^ (floor_log bytes k + 1).
Proof.
  intros Hpos; unfold floor_log.
  change (N.log2 k) with 10.
  destruct (N.log2_spec bytes Hpos) as [Hlo Hhi].
  rewrite !k_pow.
  pose proof (N.Div0.mul_div_le (N.log2 bytes) 10) as Hq.
  pose proof (N.mul_succ_div_gt (N.log2 bytes) 10 ltac:(lia)) as Hq'.
  split.
  - eapply N.le_trans; [|exact Hlo].
    apply N.pow_le_mono_r; lia.
  - eapply N.lt_le_trans; [exact Hhi|].
    apply N.pow_le_mono_r; lia.
Qed.

Lemma floor_log_unique (bytes i : N) :
  k ^ i <= bytes < k ^ (i + 1) -> floor_log bytes k = i.
Proof.
  intros [Hlo Hhi].
  assert (0 < bytes) as Hpos.
  { eapply N.lt_le_trans; [|exact Hlo]. rewrite k_pow.
    apply N.neq_0_lt_0, N.pow_nonzero; lia. }
  destruct (floor_log_spec Hpos) as [Glo Ghi].
  set (j := floor_log bytes k) in *.
  destruct (N.lt_trichotomy j i) as [L | [E | G]]; [exfalso | exact E | exfalso].
  - assert (k ^ (j + 1) <= k ^ i) by (apply N.pow_le_mono_r; unfold k; lia). lia.
  - assert (k ^ (i + 1) <= k ^ j) by (apply N.pow_le_mono_r; unfold k; lia). lia.
Qed.

Lemma floor_log_in_table (bytes : N) :
  1 <= bytes < k ^ 4 -> floor_log bytes k < table_size.
Proof.
  intros [Hlo Hhi]; unfold floor_log; change (N.log2 k) with 10.
  change table_size with 4.
  assert (N.log2 bytes < 40) as H.
  { apply N.log2_lt_pow2; [lia|]. rewrite k_pow in Hhi. exact Hhi. }
  apply N.Div0.div_lt_upper_bound; lia.
Qed.

Lemma floor_log_past_table (bytes : N) :
  k ^ 4 <= bytes -> table_size <= floor_log bytes k.
Proof.
  intros Hlo; unfold floor_log; change (N.log2 k) with 10.
  change table_size with 4.
  assert (0 < bytes) as Hpos.
  { eapply N.lt_le_trans; [|exact Hlo]. reflexivity. }
  assert (40 <= N.log2 bytes) as H.
  { apply N.log2_le_pow2; [exact Hpos|]. rewrite k_pow in Hlo. exact Hlo. }
  apply N.div_le_lower_bound; lia.
Qed.

Lemma unit_in_table (bytes : N) :
  1 <= bytes < k ^ 4 ->
  exists unit, nth_error sizes (N.to_nat (floor_log bytes k)) = Some unit.
Proof.
  intros H; pose proof (floor_log_in_table H) as Hi.
  destruct (nth_error sizes (N.to_nat (floor_log bytes k))) as [u|] eqn:E.
  - now exists u.
  - apply nth_error_None in E. unfold table_size in Hi. lia.
Qed.

(** C8: for a size in the designed range [1 <= bytes < 1024^4] the index
    computed by [formatFileSize] is an index of the table of units; for a
    size of [1024^4] or more it lies past the end of the table, and the
    text returned names no unit of the table (it reads ["undefined"]). *)
Theorem sizes_index_bounds (bytes : N) :
  (1 <= bytes < k ^ 4 ->
   floor_log bytes k < table_size
   /\ exists unit, nth_error sizes (N.to_nat (floor_log bytes k)) = Some unit)
  /\ (k ^ 4 <= bytes ->
      table_size <= floor_log bytes k
      /\ nth_error sizes (N.to_nat (floor_log bytes k)) = None
      /\ exists number, formatFileSize bytes = number ++ js " undefined").
Proof.
  split.
  - intros H; split; [apply floor_log_in_table, H | apply unit_in_table, H].
  - intros H; pose proof (floor_log_past_table H) as Hi.
    assert (nth_error sizes (N.to_nat (floor_log bytes k)) = None) as E.
    { apply nth_error_None. unfold table_size in Hi. lia. }
    split; [exact Hi | split; [exact E|]].
    unfold formatFileSize, sizes_at.
    assert ((bytes =? 0) = false) as ->.
    { apply N.eqb_neq. intros ->. vm_compute in H. congruence. }
    rewrite E. eexists; reflexivity.
Qed.

Lemma sizes_index_bounds_witness :
  (floor_log 1073741823 k < table_size
   /\ exists unit, nth_error sizes (N.to_nat (floor_log 1073741823 k)) = Some unit)
  /\ (table_size <= floor_log 1099511627776 k
      /\ nth_error sizes (N.to_nat (floor_log 1099511627776 k)) = None
      /\ exists number, formatFileSize 1099511627776 = number ++ js " undefined").
Proof.
  split.
  - apply (proj1 (sizes_index_bounds 1073741823)). vm_compute. split; congruence.
  - apply (proj2 (sizes_index_bounds 1099511627776)). vm_compute. congruence.
Defined.

(** *** The number in front of the unit *)

Lemma string_of_uint_digits (u : Decimal.uint) :
  forallb isDigit (js (NilEmpty.string_of_uint u)) = true.
Proof. induction u; simpl; auto. Qed.

Lemma Number_toString_digits (n : N) :
  forallb isDigit (Number_toString n) = true.
Proof.
  unfold Number_toString, NilZero.string_of_uint.
  destruct (N.to_uint n); try reflexivity;
    match goal with |- context [js (NilEmpty.string_of_uint ?u)] =>
      exact (string_of_uint_digits u) end.
Qed.

Lemma split_dot_digits (a b : jsstring) :
  forallb isDigit a = true -> split_dot (a ++ 46 :: b) = (a, Some b).
Proof.
  induction a as [|c a IH]; simpl; intros H; [reflexivity|].
  apply andb_prop in H as [Hc Ha].
  assert ((c =? 46) = false) as ->.
  { apply N.eqb_neq. intros ->. discriminate. }
  now rewrite (IH Ha).
Qed.

Lemma digit_zero (d : N) : (digit d =? 48) = (d =? 0).
Proof.
  unfold digit; destruct (d =? 0) eqn:E.
  - apply N.eqb_eq in E; subst; reflexivity.
  - apply N.eqb_neq in E; apply N.eqb_neq; lia.
Qed.

(** Reading back what [toFixed(2)] printed and printing it again yields
    the shortest decimal of the rounded value. *)
Lemma parseFloat_toFixed2 (num den : N) :
  parseFloat_toString (toFixed2 num den)
  = hundredths_toString (toFixed2_hundredths num den).
Proof.
  unfold parseFloat_toString, toFixed2, hundredths_toString.
  generalize (toFixed2_hundredths num den); intros n.
  change (js ".") with [46]; cbn [app].
  rewrite split_dot_digits by apply Number_toString_digits.
  cbn [rev app drop_zeros].
  rewrite !digit_zero.
  assert (n mod 10 = (n mod 100) mod 10) as E10.
  { change 100 with (10 * 10). rewrite N.Div0.mod_mul_r.
    rewrite N.mul_comm, N.Div0.mod_add. now rewrite N.Div0.mod_mod. }
  pose proof (N.mod_upper_bound n 100 ltac:(lia)) as Hlt.
  pose proof (N.div_mod (n mod 100) 10 ltac:(lia)) as Hdm.
  rewrite <- E10 in Hdm. clear E10.
  generalize dependent (n mod 100 / 10); intros q Hdm.
  generalize dependent (n mod 10); intros r Hdm.
  generalize dependent (n mod 100); intros a Hlt Hdm.
  destruct (r =? 0) eqn:E2.
  - apply N.eqb_eq in E2.
    destruct (q =? 0) eqn:E1.
    + apply N.eqb_eq in E1.
      assert ((a =? 0) = true) as -> by (apply N.eqb_eq; lia).
      now rewrite app_nil_r.
    + apply N.eqb_neq in E1.
      assert ((a =? 0) = false) as -> by (apply N.eqb_neq; lia).
      reflexivity.
  - apply N.eqb_neq in E2.
    assert ((a =? 0) = false) as -> by (apply N.eqb_neq; lia).
    reflexivity.
Qed.

Lemma toFixed2_rounds (num den : N) :
  0 < den -> rounds_to_hundredths num den (toFixed2_hundredths num den).
Proof.
  intros Hden; unfold rounds_to_hundredths, toFixed2_hundredths.
  pose proof (N.Div0.mul_div_le (200 * num + den) (2 * den)).
  pose proof (N.mul_succ_div_gt (200 * num + den) (2 * den) ltac:(lia)).
  nia.
Qed.

(** C7: [formatFileSize 0] is ["0 Bytes"]; for a size in the designed range
    the unit is the entry of the table at the index [i] with
    [1024^i <= bytes < 1024^(i+1)] (the floor of [log bytes / log 1024]),
    and the number in front of it is [bytes / 1024^i] rounded to two
    decimal places, printed without trailing zeros; in particular 1536
    gives ["1.5 KB"] and 1048576 gives ["1 MB"]. *)
Theorem formatFileSize_spec :
  formatFileSize 0 = js "0 Bytes"
  /\ (forall bytes, 0 < bytes < k ^ 4 ->
      exists i unit n,
        i = floor_log bytes k
        /\ k ^ i <= bytes < k ^ (i + 1)
        /\ nth_error sizes (N.to_nat i) = Some unit
        /\ rounds_to_hundredths bytes (k ^ i) n
        /\ formatFileSize bytes = hundredths_toString n ++ js " " ++ unit)
  /\ formatFileSize 1536 = js "1.5 KB"
  /\ formatFileSize 1048576 = js "1 MB".
Proof.
  split; [reflexivity|]. split; [|split; reflexivity].
  intros bytes [Hpos Hhi].
  destruct (@unit_in_table bytes) as [unit Hu]; [lia|].
  exists (floor_log bytes k), unit, (toFixed2_hundredths bytes (k ^ floor_log bytes k)).
  split; [reflexivity|].
  split; [apply floor_log_spec; exact Hpos|].
  split; [exact Hu|].
  split.
  - apply toFixed2_rounds. rewrite k_pow.
    apply N.neq_0_lt_0, N.pow_nonzero; lia.
  - unfold formatFileSize, sizes_at.
    assert ((bytes =? 0) = false) as -> by (apply N.eqb_neq; lia).
    now rewrite Hu, parseFloat_toFixed2.
Qed.

Lemma formatFileSize_spec_witness :
  exists i unit n,
    i = floor_log 1234567 k
    /\ k ^ i <= 1234567 < k ^ (i + 1)
    /\ nth_error sizes (N.to_nat i) = Some unit
    /\ rounds_to_hundredths 1234567 (k ^ i) n
    /\ formatFileSize 1234567 = hundredths_toString n ++ js " " ++ unit.
Proof.
  apply (proj1 (proj2 formatFileSize_spec) 1234567).
  vm_compute; split; reflexivity.
Defined.

(** Sizes next to the boundaries of the units. *)
Lemma formatFileSize_examples :
  formatFileSize 1 = js "1 Bytes"
  /\ formatFileSize 1023 = js "1023 Bytes"
  /\ formatFileSize 1024 = js "1 KB"
  /\ formatFileSize 1234567 = js "1.18 MB"
  /\ formatFileSize 1073741824 = js "1 GB"
  /\ formatFileSize 1099511627776 = js "1 undefined".
Proof. repeat split; reflexivity. Qed.

End SizeFormatter.

(** ** The date formatter *)

Section DateFormatter.

Import Formatter Spec.

Lemma expect_app (lit s r : jsstring) :
  expect lit s = Some r <-> s = lit ++ r.
Proof.
  revert s; induction lit as [|a lit IH]; intros s; simpl.
  - split; [now intros [= ->] | now intros ->].
  - destruct s as [|b s]; [split; discriminate|].
    destruct (N.eqb_spec a b) as [->|Hab].
    + rewrite IH; split; [now intros -> | now intros [= ->]].
    + split; [discriminate | intros [= E _]; congruence].
Qed.

Lemma digits_sound (n : nat) : forall s d r,
  digits n s = Some (d, r) ->
  s = d ++ r /\ length d = n /\ forallb isDigit d = true.
Proof.
  induction n as [|n IH]; intros s d r; simpl.
  - intros [= <- <-]; auto.
  - destruct s as [|c s]; [discriminate|].
    destruct (isDigit c) eqn:Hc; [|discriminate].
    destruct (digits n s) as [[d' r']|] eqn:E; [|discriminate].
    intros [= <- <-].
    apply IH in E as [-> [Hl Hd]]; simpl; rewrite Hc, Hd, Hl; auto.
Qed.

Lemma digits_complete (d r : jsstring) :
  forallb isDigit d = true -> digits (length d) (d ++ r) = Some (d, r).
Proof.
  induction d as [|c d IH]; simpl; intros H; [reflexivity|].
  apply andb_prop in H as [Hc Hd].
  now rewrite Hc, (IH Hd).
Qed.

(** Taking [n + m] digits is taking [n] and then [m]. *)
Lemma digits_add (n m : nat) (s : jsstring) :
  digits (n + m) s =
  match digits n s with
  | Some (d1, r1) =>
      match digits m r1 with
      | Some (d2, r2) => Some (d1 ++ d2, r2)
      | None => None
      end
  | None => None
  end.
Proof.
  revert s; induction n as [|n IH]; intros s; simpl.
  - destruct (digits m s) as [[d2 r2]|]; reflexivity.
  - destruct s as [|c s]; [reflexivity|].
    destruct (isDigit c); [|reflexivity].
    rewrite IH.
    destruct (digits n s) as [[d1 r1]|]; [|reflexivity].
    destruct (digits m r1) as [[d2 r2]|]; reflexivity.
Qed.

(** Closes [None <> None <-> None <> None] at two option types. *)
Ltac both_none :=
  split; intros Hnone; exfalso; apply Hnone; reflexivity.

(** The pattern matches at the head of [s] exactly when [s] starts with
    ["D:"] and fourteen digits. *)
Lemma date_here_iff (s : jsstring) :
  date_here s <> None
  <-> exists ds post,
      s = js "D:" ++ ds ++ post
      /\ length ds = 14%nat /\ forallb isDigit ds = true.
Proof.
  assert (date_here s <> None
          <-> match expect (js "D:") s with
              | Some r0 => digits 14 r0 <> None
              | None => False
              end) as E.
  { unfold date_here.
    destruct (expect (js "D:") s) as [r0|]; [|split; [congruence | tauto]].
    change 14%nat with (4 + 10)%nat; rewrite digits_add.
    destruct (digits 4 r0) as [[y r1]|]; [|both_none].
    change 10%nat with (2 + 8)%nat; rewrite digits_add.
    destruct (digits 2 r1) as [[mo r2]|]; [|both_none].
    change 8%nat with (2 + 6)%nat; rewrite digits_add.
    destruct (digits 2 r2) as [[d r3]|]; [|both_none].
    change 6%nat with (2 + 4)%nat; rewrite digits_add.
    destruct (digits 2 r3) as [[h r4]|]; [|both_none].
    change 4%nat with (2 + 2)%nat; rewrite digits_add.
    destruct (digits 2 r4) as [[mi r5]|]; [|both_none].
    destruct (digits 2 r5) as [[se r6]|]; [|both_none].
    split; discriminate. }
  rewrite E; split.
  - destruct (expect (js "D:") s) as [r0|] eqn:He; [|tauto].
    intros Hd.
    destruct (digits 14 r0) as [[ds post]|] eqn:D; [|congruence].
    apply expect_app in He; apply digits_sound in D as [-> [Hl Hf]].
    now exists ds, post.
  - intros [ds [post [-> [Hl Hf]]]].
    assert (expect (js "D:") (js "D:" ++ ds ++ post) = Some (ds ++ post)) as ->
      by now apply expect_app.
    rewrite <- Hl, (@digits_complete ds post Hf); discriminate.
Qed.

(** [date_match] finds the pattern exactly in the strings in which it
    occurs. *)
Lemma date_match_iff (s : jsstring) :
  date_match s <> None <-> matches_pattern s.
Proof.
  unfold matches_pattern; induction s as [|c s IH].
  - simpl; split.
    + intros H; exfalso; apply H; reflexivity.
    + intros [pre [ds [post [E _]]]].
      destruct pre; discriminate.
  - cbn [date_match].
    destruct (date_here (c :: s)) as [m|] eqn:Hh.
    + split; [intros _ | discriminate].
      assert (date_here (c :: s) <> None) as Hn by congruence.
      apply date_here_iff in Hn as [ds [post [E [Hl Hf]]]].
      exists [], ds, post; auto.
    + rewrite IH; split.
      * intros [pre [ds [post [-> [Hl Hf]]]]].
        exists (c :: pre), ds, post; auto.
      * intros [[|c' pre] [ds [post [E [Hl Hf]]]]].
        -- exfalso.
           assert (date_here (c :: s) <> None) as Hn.
           { apply date_here_iff; exists ds, post; auto. }
           congruence.
        -- injection E as _ ->. exists pre, ds, post; auto.
Qed.

(** C9: [formatPDFDate] is a total function; on every string in which the
    date pattern (["D:"] and fourteen digits, the offset being optional)
    does not occur it returns the string unchanged. *)
Theorem formatPDFDate_fails_open (P : Platform) (dateStr : jsstring) :
  ~ matches_pattern dateStr -> formatPDFDate P dateStr = dateStr.
Proof.
  intros H; unfold formatPDFDate.
  destruct (date_match dateStr) as [m|] eqn:E; [|reflexivity].
  exfalso; apply H, date_match_iff; congruence.
Qed.

Lemma formatPDFDate_fails_open_witness :
  formatPDFDate sample_platform (js "garbage") = js "garbage".
Proof.
  apply (formatPDFDate_fails_open sample_platform).
  intros H; apply date_match_iff in H; apply H; reflexivity.
Defined.

(** The expression is not anchored: a date inside a longer text is
    found, and the text is replaced by the formatted date. *)
Lemma formatPDFDate_examples :
  formatPDFDate sample_platform (js "D:20230115103000-05'00'")
  = js "[2023-01-15T10:30:00-05:00]"
  /\ formatPDFDate sample_platform (js "D:20230115103000")
     = js "[2023-01-15T10:30:00Z]"
  /\ formatPDFDate sample_platform (js "created D:20230115103000 or so")
     = js "[2023-01-15T10:30:00Z]"
  /\ formatPDFDate sample_platform (js "D:2023011510300") = js "D:2023011510300".
Proof. repeat split; reflexivity. Qed.

End DateFormatter.

(** ** One extraction *)

Section Extraction.

Import Viewer Spec.

(** Splits an extraction into the cases of what the world answers. *)
Ltac world_cases W file password :=
  unfold extract, submit_password, setter_calls, outcome, library_failure,
    extractMetadata, inner_catch, outer_catch, finally_block;
  destruct (arrayBuffer W file) as [bytes | read_err];
  [ destruct (includes (js "/Encrypt") (TextDecoder.decode bytes)) eqn:Henc;
    destruct (truthy_opt password) eqn:Hpw;
    cbn [andb negb];
    try destruct (detectPDFHeader bytes) as [probe_isPDF probe_version];
    try (destruct (getDocument W bytes password)
           as [numPages [info | meta_err] | load_err];
         [ | destruct (is_PasswordException meta_err) eqn:Hexn
           | destruct (is_PasswordException load_err) eqn:Hexn ])
  | destruct (truthy_opt password) eqn:Hpw ].

(** The top-level error of the state after an extraction, by its
    outcome. *)
Lemma error_by_outcome (W : World) (file : File) (password : option jsstring)
    (s : State) :
  error (extract W file password s) =
  match outcome W file password with
  | ReadFailure e =>
      if truthy_opt password then None
      else Some (js "Error processing file: " ++ read_message e)
  | ParseFailure e =>
      if truthy_opt password then None
      else Some (js "Error processing file: "
                 ++ js "Error processing PDF: " ++ library_message e)
  | _ => None
  end.
Proof.
  world_cases W file password; try rewrite Hpw; reflexivity.
Qed.

(** X15: the error of the password prompt after an extraction, by its
    outcome.  A success clears it; an invalid password sets it to
    ["Invalid password. Please try again."]; a parse or read failure of an
    extraction with a password sets it to the failure's text; an
    extraction that ends at the prompt, and a failure of an extraction
    without password, leave it as it was (an error shown for an earlier
    file stays). *)
Lemma passwordError_by_outcome (W : World) (file : File)
    (password : option jsstring) (s : State) :
  passwordError (extract W file password s) =
  match outcome W file password with
  | Succeeded => None
  | EncryptedNeedsPassword => passwordError s
  | InvalidPassword => Some (js "Invalid password. Please try again.")
  | ParseFailure e =>
      if truthy_opt password
      then Some (js "Error processing PDF: " ++ library_message e)
      else passwordError s
  | ReadFailure e =>
      if truthy_opt password
      then (if instanceof_Error e then thrown_message e
            else Some (js "Failed to decrypt PDF"))
      else passwordError s
  end.
Proof.
  world_cases W file password; try rewrite Hpw; reflexivity.
Qed.

(** C3, as the code has it: after an extraction the top-level error panel
    shows a text only for a read failure or a parse failure of an
    extraction without password.  For the read failure it is
    ["Error processing file: <message>"]; for the parse failure the
    library's message, already wrapped as ["Error processing PDF: ..."],
    is wrapped once more, giving
    ["Error processing file: Error processing PDF: <library message>"].
    With a password neither reaches the panel (they go to the prompt), and
    the two password errors never do. *)
Theorem error_panel_by_outcome (W : World) (file : File)
    (password : option jsstring) (s : State) :
  error_panel (extract W file password s) =
  match outcome W file password with
  | ReadFailure e =>
      if truthy_opt password then None
      else Some (js "Error processing file: " ++ read_message e)
  | ParseFailure e =>
      if truthy_opt password then None
      else Some (js "Error processing file: "
                 ++ js "Error processing PDF: " ++ library_message e)
  | Succeeded | EncryptedNeedsPassword | InvalidPassword => None
  end.
Proof.
  unfold error_panel; rewrite error_by_outcome.
  destruct (outcome W file password); try reflexivity;
    destruct (truthy_opt password); reflexivity.
Qed.

Lemma error_panel_by_outcome_witness :
  error_panel (extract Examples.world Examples.broken_pdf None initial)
  = Some (js "Error processing file: Error processing PDF: Invalid PDF structure.")
  /\ error_panel (extract Examples.world Examples.locked_pdf
                          (Some (js "guess")) initial) = None.
Proof.
  split.
  - rewrite (error_panel_by_outcome Examples.world Examples.broken_pdf None initial).
    reflexivity.
  - rewrite (error_panel_by_outcome Examples.world Examples.locked_pdf
               (Some (js "guess")) initial).
    reflexivity.
Defined.

(** C3 as stated fails: on a parse failure of an extraction without
    password the panel does not show ["Error processing PDF: <library
    message>"] but that text behind a second prefix; and when the same
    failure follows a submitted password, the panel shows nothing at all
    (the text goes to the prompt). *)
Lemma parse_failure_message_is_wrapped_twice :
  outcome Examples.world Examples.broken_pdf None
  = ParseFailure Examples.InvalidPDFException
  /\ library_message Examples.InvalidPDFException = js "Invalid PDF structure."
  /\ error_panel (extract Examples.world Examples.broken_pdf None initial)
     = Some (js "Error processing file: Error processing PDF: Invalid PDF structure.")
  /\ error_panel (extract Examples.world Examples.broken_pdf None initial)
     <> Some (js "Error processing PDF: Invalid PDF structure.")
  /\ outcome Examples.world Examples.broken_pdf (Some (js "guess"))
     = ParseFailure Examples.InvalidPDFException
  /\ error_panel (extract Examples.world Examples.broken_pdf
                          (Some (js "guess")) initial) = None
  /\ passwordError (extract Examples.world Examples.broken_pdf
                            (Some (js "guess")) initial)
     = Some (js "Error processing PDF: Invalid PDF structure.").
Proof. repeat split; try reflexivity. vm_compute; discriminate. Qed.

(** C2: an extraction without password of a file whose decoded bytes
    contain ["/Encrypt"], started with an empty retry state, ends awaiting
    the password: the dialog is shown, the file is pending and no error is
    set.  Submitting a wrong password then sets the prompt's error to
    ["Invalid password. Please try again."], takes the attempt counter from
    0 to 1 and leaves the pending file in place. *)
Theorem encrypted_prompt_then_wrong_password
    (W1 W2 : World) (file : File) (bytes1 bytes2 : list byte)
    (pw : jsstring) (e : Thrown) (s : State) :
  arrayBuffer W1 file = ReadResolves bytes1 ->
  includes (js "/Encrypt") (TextDecoder.decode bytes1) = true ->
  passwordError s = None ->
  attempts s = 0%N ->
  pw <> [] ->
  arrayBuffer W2 file = ReadResolves bytes2 ->
  getDocument W2 bytes2 (Some pw) = LoadRejects e ->
  is_PasswordException e = true ->
  let s1 := extract W1 file None s in
  let s2 := submit_password W2 pw s1 in
  (showPasswordDialog s1 = true
   /\ currentFile s1 = Some file
   /\ error s1 = None
   /\ passwordError s1 = None
   /\ attempts s1 = 0%N)
  /\ (passwordError s2 = Some (js "Invalid password. Please try again.")
      /\ attempts s2 = 1%N
      /\ currentFile s2 = Some file
      /\ showPasswordDialog s2 = true
      /\ error s2 = None).
Proof.
  intros Hread1 Henc Hpe Hat Hpw Hread2 Hload Hexn s1 s2.
  assert (truthy pw = true) as Htruthy by (destruct pw; [contradiction | reflexivity]).
  assert (s1 = mkViewer (metadata s) false None (Some file) true None 0%N) as E1.
  { unfold s1, extract, extractMetadata.
    rewrite Hread1, Henc; cbn; now rewrite Hpe, Hat. }
  split; [rewrite E1; cbn; auto|].
  unfold s2, submit_password, handlePasswordSubmit; rewrite E1.
  cbn [currentFile]; unfold extractMetadata.
  rewrite Hread2; cbn [truthy_opt]; rewrite Htruthy, andb_false_r.
  destruct (detectPDFHeader bytes2) as [probe_isPDF probe_version].
  rewrite Hload; unfold inner_catch, outer_catch.
  rewrite Hexn; cbn [truthy_opt]; rewrite Htruthy.
  cbn; auto.
Qed.

Lemma encrypted_prompt_then_wrong_password_witness :
  let s1 := extract Examples.world Examples.locked_pdf None initial in
  let s2 := submit_password Examples.world (js "guess") s1 in
  (showPasswordDialog s1 = true
   /\ currentFile s1 = Some Examples.locked_pdf
   /\ error s1 = None
   /\ passwordError s1 = None
   /\ attempts s1 = 0%N)
  /\ (passwordError s2 = Some (js "Invalid password. Please try again.")
      /\ attempts s2 = 1%N
      /\ currentFile s2 = Some Examples.locked_pdf
      /\ showPasswordDialog s2 = true
      /\ error s2 = None).
Proof.
  apply (@encrypted_prompt_then_wrong_password
           Examples.world Examples.world Examples.locked_pdf
           Examples.locked_bytes Examples.locked_bytes (js "guess")
           Examples.PasswordException initial);
    solve [reflexivity | discriminate].
Defined.

(** *** The dictionary of a successful extraction *)

Lemma dict_get_set_same (key value : jsstring) (d : PDFInfoDictionary) :
  dict_get key (dict_set key value d) = Some value.
Proof.
  induction d as [|[k' v'] d IH]; simpl.
  - now rewrite eqb_refl.
  - destruct (JS.eqb k' key) eqn:E; simpl; rewrite E; auto.
Qed.

Lemma dict_get_set_other (key key' value : jsstring) (d : PDFInfoDictionary) :
  key <> key' ->
  dict_get key (dict_set key' value d) = dict_get key d.
Proof.
  intros Hne; induction d as [|[k' v'] d IH]; simpl.
  - assert (JS.eqb key' key = false) as -> by (apply eqb_neq; congruence).
    reflexivity.
  - destruct (JS.eqb k' key') eqn:E; simpl.
    + apply eqb_eq in E; subst k'.
      assert (JS.eqb key' key = false) as -> by (apply eqb_neq; congruence).
      reflexivity.
    + now rewrite IH.
Qed.

Lemma build_infoDict_computed (P : Platform) (file : File) (text : jsstring)
    (enc : bool) (numPages : N) (info : option (list (jsstring * InfoValue))) :
  let d := build_infoDict P file text enc numPages info in
  dict_get (js "Security Status") d
  = Some (if enc then ENCRYPTED else NOT_ENCRYPTED)
  /\ dict_get (js "Accessibility") d
     = Some (if includes (js "/MarkInfo") text then TAGGED else NOT_TAGGED)
  /\ dict_get (js "Page Count") d
     = Some (Number_toString numPages ++ js " pages").
Proof.
  unfold build_infoDict; cbv zeta; repeat split.
  - rewrite dict_get_set_other by (vm_compute; discriminate).
    now rewrite dict_get_set_same.
  - now rewrite dict_get_set_same.
  - rewrite !dict_get_set_other by (vm_compute; discriminate).
    now rewrite dict_get_set_same.
Qed.

(** The only setter call that sets a result is the one of the last
    stretch of a successful extraction. *)
Lemma setMetadata_only_on_success (W : World) (file : File)
    (password : option jsstring) (m : PDFMetadata) :
  In (setMetadata m) (setter_calls W file password) ->
  exists bytes numPages info,
    arrayBuffer W file = ReadResolves bytes
    /\ getDocument W bytes password
       = LoadResolves numPages (MetadataResolves info)
    /\ (includes (js "/Encrypt") (TextDecoder.decode bytes) = true ->
        truthy_opt password = true)
    /\ m = mkPDFMetadata (name file) (Formatter.formatFileSize (size file))
             (type file)
             (fst (detectPDFHeader bytes)) (snd (detectPDFHeader bytes))
             (build_infoDict (platform W) file (TextDecoder.decode bytes)
                (includes (js "/Encrypt") (TextDecoder.decode bytes))
                numPages info).
Proof.
  unfold setter_calls, extractMetadata, inner_catch, outer_catch, finally_block.
  destruct (arrayBuffer W file) as [bytes | read_err].
  2:{ destruct (truthy_opt password); cbn [List.concat app In];
      intros H; repeat (destruct H as [H | H]); try discriminate; contradiction. }
  destruct (includes (js "/Encrypt") (TextDecoder.decode bytes)) eqn:Henc;
    destruct (truthy_opt password) eqn:Hpw; cbn [andb negb];
    try destruct (detectPDFHeader bytes) as [probe_isPDF probe_version] eqn:Hprobe;
    try (destruct (getDocument W bytes password)
           as [numPages [info | meta_err] | load_err] eqn:Hload;
         [ | destruct (is_PasswordException meta_err)
           | destruct (is_PasswordException load_err) ]);
    cbn [List.concat app In];
    intros H; repeat (destruct H as [H | H]);
    try discriminate; try contradiction;
    injection H as <-; exists bytes, numPages, info;
    rewrite Hprobe, Henc;
    (split; [reflexivity | split; [exact Hload | split; [congruence | reflexivity]]]).
Qed.

(** C6: in the result of every successful extraction the entry
    ["Security Status"] reads ["Encrypted ..."] exactly when the decoded
    bytes of the file contain ["/Encrypt"], and ["Not Encrypted ..."]
    otherwise, whatever the password and whatever the library needed;
    ["Accessibility"] reads ["Tagged PDF ..."] exactly when they contain
    ["/MarkInfo"], and ["Not Tagged ..."] otherwise. *)
Theorem security_status_follows_bytes (W : World) (file : File)
    (password : option jsstring) (m : PDFMetadata) :
  In (setMetadata m) (setter_calls W file password) ->
  exists bytes,
    arrayBuffer W file = ReadResolves bytes
    /\ let text := TextDecoder.decode bytes in
       dict_get (js "Security Status") (infoDict m)
       = Some (if includes (js "/Encrypt") text then ENCRYPTED else NOT_ENCRYPTED)
       /\ (dict_get (js "Security Status") (infoDict m) = Some ENCRYPTED
           <-> includes (js "/Encrypt") text = true)
       /\ dict_get (js "Accessibility") (infoDict m)
          = Some (if includes (js "/MarkInfo") text then TAGGED else NOT_TAGGED)
       /\ (dict_get (js "Accessibility") (infoDict m) = Some TAGGED
           <-> includes (js "/MarkInfo") text = true).
Proof.
  intros H.
  apply setMetadata_only_on_success in H
    as [bytes [numPages [info [Hread [_ [_ ->]]]]]].
  exists bytes; split; [exact Hread|]; cbv zeta; cbn [infoDict].
  destruct (build_infoDict_computed (platform W) file (TextDecoder.decode bytes)
              (includes (js "/Encrypt") (TextDecoder.decode bytes))
              numPages info) as [Hs [Ha _]].
  rewrite Hs, Ha; repeat split; try reflexivity.
  - destruct (includes (js "/Encrypt") (TextDecoder.decode bytes));
      [reflexivity | intros E; vm_compute in E; discriminate].
  - now intros ->.
  - destruct (includes (js "/MarkInfo") (TextDecoder.decode bytes));
      [reflexivity | intros E; vm_compute in E; discriminate].
  - now intros ->.
Qed.

Lemma security_status_follows_bytes_witness :
  exists bytes,
    arrayBuffer Examples.world Examples.locked_pdf = ReadResolves bytes
    /\ let text := TextDecoder.decode bytes in
       dict_get (js "Security Status") (infoDict Examples.locked_result)
       = Some (if includes (js "/Encrypt") text then ENCRYPTED else NOT_ENCRYPTED)
       /\ (dict_get (js "Security Status") (infoDict Examples.locked_result)
           = Some ENCRYPTED
           <-> includes (js "/Encrypt") text = true)
       /\ dict_get (js "Accessibility") (infoDict Examples.locked_result)
          = Some (if includes (js "/MarkInfo") text then TAGGED else NOT_TAGGED)
       /\ (dict_get (js "Accessibility") (infoDict Examples.locked_result)
           = Some TAGGED
           <-> includes (js "/MarkInfo") text = true).
Proof.
  apply (@security_status_follows_bytes Examples.world Examples.locked_pdf
           (Some (js "secret")) Examples.locked_result).
  vm_compute. do 2 right. left. reflexivity.
Defined.

End Extraction.

(** ** The components together *)

Section Application.

Import Viewer Spec App.

Ltac seg_ok_by_computation :=
  let s := fresh "s" in
  intros s; destruct s; unfold pending_iff_prompt, result_rule;
  cbn; intuition (discriminate || congruence).

Ltac each_segment :=
  repeat first [apply Forall_nil | apply Forall_cons];
  seg_ok_by_computation.

Lemma seg_ok_nil : seg_ok [].
Proof. seg_ok_by_computation. Qed.

(** Every stretch of an extraction keeps the invariant and follows the
    result rule. *)
Lemma extractMetadata_ok (W : World) (file : File) (password : option jsstring) :
  Forall seg_ok (extractMetadata W file password).
Proof.
  unfold extractMetadata, inner_catch, outer_catch, finally_block.
  destruct (arrayBuffer W file) as [bytes | read_err].
  2:{ destruct (truthy_opt password); each_segment. }
  destruct (includes (js "/Encrypt") (TextDecoder.decode bytes));
    destruct (truthy_opt password); cbn [andb negb];
    try destruct (detectPDFHeader bytes) as [probe_isPDF probe_version];
    try (destruct (getDocument W bytes password)
           as [numPages [info | meta_err] | load_err];
         [ | destruct (is_PasswordException meta_err)
           | destruct (is_PasswordException load_err) ]);
    each_segment.
Qed.

Lemma handlePasswordSubmit_ok (W : World) (s : State) (pw : jsstring) :
  Forall seg_ok (handlePasswordSubmit W s pw).
Proof.
  unfold handlePasswordSubmit; destruct (currentFile s);
    [apply extractMetadata_ok | constructor].
Qed.

Lemma onClose_ok : seg_ok onClose.
Proof. unfold onClose; seg_ok_by_computation. Qed.

Lemma result_rule_refl (s : State) : result_rule s s.
Proof. now left. Qed.

(** A sequence of stretches run in one go keeps the invariant. *)
Lemma segments_keep_invariant (segs : list (list Action)) :
  Forall seg_ok segs ->
  forall s,
    pending_iff_prompt s -> pending_iff_prompt (fold_left apply_all segs s).
Proof.
  induction 1 as [|seg segs Hseg _ IH]; intros s Hs; cbn; [exact Hs|].
  apply IH, (proj1 (Hseg s)), Hs.
Qed.

Lemma advance_ok (segs : list (list Action)) (o : Origin)
    (v : Viewer.State) (d : Dialog.State) (before after : list Task) :
  Forall seg_ok segs ->
  pending_iff_prompt v ->
  Forall task_ok before -> Forall task_ok after ->
  pending_iff_prompt (fst (fst (advance segs o v d before after)))
  /\ Forall task_ok (snd (advance segs o v d before after))
  /\ result_rule v (fst (fst (advance segs o v d before after))).
Proof.
  intros Hsegs Hv Hb Ha; unfold advance.
  destruct segs as [|seg [|seg' rest]]; cbn [fst snd].
  - split; [exact Hv | split; [apply Forall_app; auto | apply result_rule_refl]].
  - inversion Hsegs as [|? ? Hseg _]; subst.
    destruct (Hseg v) as [Hi Hr].
    split; [auto | split; [apply Forall_app; auto | exact Hr]].
  - inversion Hsegs as [|? ? Hseg Hrest]; subst.
    destruct (Hseg v) as [Hi Hr].
    split; [auto | split; [| exact Hr]].
    apply Forall_app; split; [exact Hb|].
    constructor; [exact Hrest | exact Ha].
Qed.

Lemma initial_ok : sys_ok App.initial.
Proof.
  split; [|constructor].
  unfold pending_iff_prompt; cbn; split; [congruence | discriminate].
Qed.

(** An event that changes nothing. *)
Lemma unchanged_ok (sys : Sys) :
  sys_ok sys -> sys_ok sys /\ result_rule (view sys) (view sys).
Proof. intros H; split; [exact H | apply result_rule_refl]. Qed.

(** Every event keeps the invariant of the system and follows the result
    rule. *)
Lemma step_ok (sys : Sys) (ev : Event) :
  sys_ok sys ->
  sys_ok (step sys ev) /\ result_rule (view sys) (view (step sys ev)).
Proof.
  intros Hsys; pose proof Hsys as [Hv Hts].
  destruct ev as [file W | value | | W | | i]; cbn [step].
  - pose proof (@advance_ok (handleDrop W file) FromDropZone (view sys)
                  (dialog sys) (tasks sys) [] (extractMetadata_ok W file None)
                  Hv Hts (Forall_nil _)) as [H1 [H2 H3]].
    destruct (advance (handleDrop W file) FromDropZone (view sys)
                (dialog sys) (tasks sys) []) as [[v d] ts].
    split; [split|]; assumption.
  - destruct (showPasswordDialog (view sys)); [|now apply unchanged_ok].
    split; [split; assumption | apply result_rule_refl].
  - destruct (showPasswordDialog (view sys)); [|now apply unchanged_ok].
    split; [split; assumption | apply result_rule_refl].
  - destruct (showPasswordDialog (view sys)
              && negb (Dialog.submit_disabled (dialog sys)));
      [|now apply unchanged_ok].
    cbn [Dialog.handleSubmit_begin].
    pose proof (@advance_ok
                  (handlePasswordSubmit W (view sys) (Dialog.password (dialog sys)))
                  FromPrompt (view sys)
                  (Dialog.mkDialog (Dialog.password (dialog sys))
                     (Dialog.showPassword (dialog sys)) true)
                  (tasks sys) []
                  (handlePasswordSubmit_ok W (view sys) _)
                  Hv Hts (Forall_nil _)) as [H1 [H2 H3]].
    destruct (advance _ _ _ _ _ _) as [[v d] ts].
    split; [split|]; assumption.
  - destruct (showPasswordDialog (view sys)
              && negb (Dialog.cancel_disabled (dialog sys)));
      [|now apply unchanged_ok].
    destruct (onClose_ok (view sys)) as [Hi Hr].
    split; [split; [apply Hi, Hv | exact Hts] | exact Hr].
  - destruct (nth_error (tasks sys) i) as [t|] eqn:Et;
      [|now apply unchanged_ok].
    pose proof (proj1 (Forall_forall task_ok (tasks sys)) Hts) as Hin.
    assert (task_ok t) as Ht.
    { apply Hin. eapply nth_error_In; eauto. }
    assert (Forall task_ok (firstn i (tasks sys))) as Hb.
    { apply Forall_forall; intros x Hx; apply Hin.
      rewrite <- (firstn_skipn i (tasks sys)); apply in_or_app; now left. }
    assert (Forall task_ok (skipn (S i) (tasks sys))) as Ha.
    { apply Forall_forall; intros x Hx; apply Hin.
      rewrite <- (firstn_skipn (S i) (tasks sys)); apply in_or_app; now right. }
    pose proof (@advance_ok (remaining t) (origin t) (view sys) (dialog sys)
                  _ _ Ht Hv Hb Ha) as [H1 [H2 H3]].
    destruct (advance _ _ _ _ _ _) as [[v d] ts].
    split; [split|]; assumption.
Qed.

Lemma fold_step_ok (evs : list Event) : forall sys,
  sys_ok sys -> sys_ok (fold_left step evs sys).
Proof.
  induction evs as [|ev evs IH]; intros sys H; cbn; [exact H|].
  apply IH, step_ok, H.
Qed.

(** Every state a run reaches satisfies the invariant of the system. *)
Lemma run_ok (evs : list Event) : sys_ok (run evs).
Proof. apply fold_step_ok, initial_ok. Qed.

(** C4: in every state the viewer reaches, a file is pending exactly when
    the password dialog is shown, however the suspended extractions are
    interleaved; and each operation keeps this: an extraction run to its
    end (whether it stops at the prompt, fails on the password, fails
    otherwise or succeeds), the submission of a password, and the closing
    of the dialog. *)
Theorem pending_file_iff_dialog_shown :
  (forall evs : list Event, pending_iff_prompt (view (run evs)))
  /\ (forall W file password s,
        pending_iff_prompt s -> pending_iff_prompt (extract W file password s))
  /\ (forall W pw s,
        pending_iff_prompt s -> pending_iff_prompt (submit_password W pw s))
  /\ (forall s,
        pending_iff_prompt s -> pending_iff_prompt (apply_all s onClose)).
Proof.
  split; [|split; [|split]].
  - intros evs; exact (proj1 (run_ok evs)).
  - intros W file password s; unfold extract.
    apply segments_keep_invariant, extractMetadata_ok.
  - intros W pw s; unfold submit_password.
    apply segments_keep_invariant, handlePasswordSubmit_ok.
  - intros s; exact (proj1 (onClose_ok s)).
Qed.

Lemma pending_file_iff_dialog_shown_witness :
  pending_iff_prompt (view (run Examples.drop_plain_then_locked))
  /\ pending_iff_prompt
       (submit_password Examples.world (js "guess")
          (extract Examples.world Examples.locked_pdf None Viewer.initial)).
Proof.
  split.
  - exact (proj1 pending_file_iff_dialog_shown Examples.drop_plain_then_locked).
  - apply (proj1 (proj2 (proj2 pending_file_iff_dialog_shown))).
    apply (proj1 (proj2 pending_file_iff_dialog_shown)).
    exact (proj1 initial_ok).
Defined.

(** C1 as stated fails: after a plain file was extracted and a locked one
    was dropped, the locked file is pending, the dialog is shown, and the
    result of the plain file is still present and rendered. *)
Lemma result_present_while_password_pending :
  let s := view (run Examples.drop_plain_then_locked) in
  currentFile s = Some Examples.locked_pdf
  /\ showPasswordDialog s = true
  /\ option_map fileName (metadata s) = Some (js "plain.pdf")
  /\ metadata_grids s <> None.
Proof. cbv zeta; repeat split; try reflexivity. vm_compute; discriminate. Qed.

(** C1, as the code has it: at every event of every run the result either
    stays as it is or is set to a result in a state without pending file
    and with the dialog hidden (the last stretch of a successful
    extraction); the viewer never clears a result, so one that is present
    stays present, also while a later file is pending a password. *)
Theorem result_set_only_without_pending_file (evs : list Event) (ev : Event) :
  let s := view (run evs) in
  let s' := view (step (run evs) ev) in
  (metadata s' = metadata s
   \/ (metadata s' <> None
       /\ currentFile s' = None /\ showPasswordDialog s' = false))
  /\ (metadata s <> None -> metadata s' <> None)
  /\ (metadata_grids s' <> None <-> metadata s' <> None).
Proof.
  cbv zeta.
  destruct (step_ok ev (run_ok evs)) as [_ Hr].
  split; [exact Hr | split].
  - destruct Hr as [-> | [H _]]; auto.
  - unfold metadata_grids.
    destruct (metadata (view (step (run evs) ev))); split; congruence.
Qed.

Lemma result_set_only_without_pending_file_witness :
  let s := view (run Examples.drop_plain_then_locked) in
  let s' := view (step (run Examples.drop_plain_then_locked)
                       (SubmitForm Examples.world)) in
  (metadata s' = metadata s
   \/ (metadata s' <> None
       /\ currentFile s' = None /\ showPasswordDialog s' = false))
  /\ (metadata s <> None -> metadata s' <> None)
  /\ (metadata_grids s' <> None <-> metadata s' <> None).
Proof.
  exact (result_set_only_without_pending_file
           Examples.drop_plain_then_locked (SubmitForm Examples.world)).
Defined.

(** *** The prompt *)

Lemma truthy_nonempty (s : jsstring) : truthy s = true <-> s <> [].
Proof. destruct s; cbn; split; congruence. Qed.

Lemma step_calls_ok (sys : Sys) (ev : Event) :
  Forall prompt_call_ok (calls sys) ->
  Forall prompt_call_ok (calls (step sys ev)).
Proof.
  intros H; destruct ev as [file W | value | | W | | i]; cbn [step].
  - destruct (advance _ _ _ _ _ _) as [[v d] ts]; cbn [calls].
    apply Forall_app; split; [exact H|].
    constructor; [|constructor]. intros E; discriminate.
  - destruct (showPasswordDialog (view sys)); auto.
  - destruct (showPasswordDialog (view sys)); auto.
  - destruct (showPasswordDialog (view sys)); cbn [andb]; [|exact H].
    destruct (Dialog.submit_disabled (dialog sys)) eqn:Hd; cbn [negb]; [exact H|].
    cbn [Dialog.handleSubmit_begin].
    destruct (advance _ _ _ _ _ _) as [[v d] ts]; cbn [calls].
    apply Forall_app; split; [exact H|].
    destruct (currentFile (view sys)); constructor; [|constructor].
    intros _; exists (Dialog.password (dialog sys)); split; [reflexivity|].
    apply truthy_nonempty.
    unfold Dialog.submit_disabled in Hd.
    apply orb_false_elim in Hd as [Hd _].
    now apply negb_false_iff in Hd.
  - destruct (showPasswordDialog (view sys)
              && negb (Dialog.cancel_disabled (dialog sys))); auto.
  - destruct (nth_error (tasks sys) i); [|exact H].
    destruct (advance _ _ _ _ _ _) as [[v d] ts]; exact H.
Qed.

Lemma fold_step_calls_ok (evs : list Event) : forall sys,
  Forall prompt_call_ok (calls sys) ->
  Forall prompt_call_ok (calls (fold_left step evs sys)).
Proof.
  induction evs as [|ev evs IH]; intros sys H; cbn; [exact H|].
  apply IH, step_calls_ok, H.
Qed.

(** C10: whenever the entered password is empty or a submission is in
    flight, the submit button is disabled and submitting the form does
    nothing; so in every run each call of [extractMetadata] that the
    prompt makes carries a non-empty password. *)
Theorem prompt_never_submits_empty_password :
  (forall d : Dialog.State,
     Dialog.password d = [] \/ Dialog.isSubmitting d = true ->
     Dialog.submit_disabled d = true)
  /\ (forall (sys : Sys) (W : World),
        Dialog.submit_disabled (dialog sys) = true ->
        step sys (SubmitForm W) = sys)
  /\ (forall evs : list Event, Forall prompt_call_ok (calls (run evs))).
Proof.
  split; [|split].
  - intros d [H | H]; unfold Dialog.submit_disabled; rewrite H;
      [reflexivity | apply orb_true_r].
  - intros sys W H; cbn [step]; rewrite H; cbn [negb].
    now rewrite andb_false_r.
  - intros evs; apply fold_step_calls_ok; constructor.
Qed.

Lemma prompt_never_submits_empty_password_witness :
  Dialog.submit_disabled (Dialog.mkDialog [] false false) = true
  /\ Dialog.submit_disabled (Dialog.mkDialog (js "guess") false true) = true
  /\ Forall prompt_call_ok (calls (run Examples.wrong_password_session)).
Proof.
  split; [|split].
  - apply (proj1 prompt_never_submits_empty_password); left; reflexivity.
  - apply (proj1 prompt_never_submits_empty_password); right; reflexivity.
  - apply (proj2 (proj2 prompt_never_submits_empty_password)).
Defined.

(** The session of the wrong password, state by state: the prompt made one
    call, with the password typed; the last submission, with the field
    cleared, made none. *)
Lemma wrong_password_session_calls :
  map call_password (calls (run Examples.wrong_password_session))
  = [None; Some (js "guess")]
  /\ attempts (view (run Examples.wrong_password_session)) = 1%N
  /\ Dialog.password (dialog (run Examples.wrong_password_session)) = [].
Proof. repeat split; reflexivity. Qed.

End Application.

(** ** The probes look at the raw bytes *)

Section RawProbe.

Import TextDecoder Spec.
Local Open Scope N_scope.

(** *** Markers *)

Lemma mark_ascii (c : N) : c < 128 -> mark c = c.
Proof. intros H; unfold mark; apply N.ltb_lt in H; now rewrite H. Qed.

Lemma mark_other (c : N) : 128 <= c -> mark c = marker.
Proof.
  intros H; unfold mark.
  destruct (N.ltb_spec c 128); [lia | reflexivity].
Qed.

Lemma squeeze_cons_congr (c : N) (l1 l2 : list N) :
  squeeze l1 = squeeze l2 -> squeeze (c :: l1) = squeeze (c :: l2).
Proof. intros H; cbn [squeeze]; now rewrite H. Qed.

Lemma squeeze_marker_starts (l : list N) :
  starts_with_marker (squeeze (marker :: l)) = true.
Proof.
  cbn [squeeze]; rewrite N.eqb_refl; cbn [andb].
  destruct (starts_with_marker (squeeze l)) eqn:E; [exact E | reflexivity].
Qed.

Lemma squeeze_marker_twice (l : list N) :
  squeeze (marker :: marker :: l) = squeeze (marker :: l).
Proof.
  change (squeeze (marker :: marker :: l))
    with (if (marker =? marker) && starts_with_marker (squeeze (marker :: l))
          then squeeze (marker :: l) else marker :: squeeze (marker :: l)).
  now rewrite squeeze_marker_starts, N.eqb_refl.
Qed.

Lemma startsWith_mark (n : jsstring) : ascii_text n -> forall l,
  startsWith n (map mark l) = startsWith n l.
Proof.
  induction 1 as [|a n Ha _ IH]; intros l; [reflexivity|].
  destruct l as [|c l]; [reflexivity|]; cbn [map startsWith].
  rewrite IH; f_equal.
  unfold mark; destruct (N.ltb_spec c 128); [reflexivity|].
  unfold marker; destruct (N.eqb_spec a 128), (N.eqb_spec a c); lia.
Qed.

Lemma includes_mark (n : jsstring) (l : list N) :
  ascii_text n -> includes n (map mark l) = includes n l.
Proof.
  intros Hn; induction l as [|c l IH].
  - reflexivity.
  - cbn [map includes]; rewrite IH; f_equal.
    exact (startsWith_mark Hn (c :: l)).
Qed.

Lemma startsWith_squeeze (l : list N) : forall n,
  ascii_text n -> startsWith n (squeeze l) = startsWith n l.
Proof.
  induction l as [|c l IH]; intros n Hn; [reflexivity|].
  destruct Hn as [|a n Ha Hn]; [now destruct (squeeze (c :: l))|].
  pose proof (IH n Hn) as IHn; clear IH.
  cbn [squeeze].
  destruct (N.eqb_spec c marker) as [->|Hc]; cbn [andb].
  - destruct (squeeze l) as [|d t]; cbn [starts_with_marker].
    + cbn [startsWith]. now rewrite IHn.
    + destruct (N.eqb_spec d marker) as [->|Hd].
      * cbn [startsWith].
        assert ((a =? marker) = false) as -> by (apply N.eqb_neq; unfold marker; lia).
        reflexivity.
      * cbn [startsWith]. now rewrite IHn.
  - cbn [startsWith]. now rewrite IHn.
Qed.

Lemma includes_squeeze (n : jsstring) (l : list N) :
  ascii_text n -> includes n (squeeze l) = includes n l.
Proof.
  intros Hn; induction l as [|c l IH]; [reflexivity|].
  pose proof (startsWith_squeeze (c :: l) Hn) as Hs.
  cbn [squeeze] in *.
  destruct ((c =? marker) && starts_with_marker (squeeze l)) eqn:E.
  - apply andb_prop in E as [Ec _]; apply N.eqb_eq in Ec; subst c.
    rewrite IH; cbn [includes].
    destruct Hn as [|a n Ha Hn]; [now destruct l|].
    cbn [startsWith].
    assert ((a =? marker) = false) as -> by (apply N.eqb_neq; unfold marker; lia).
    reflexivity.
  - cbn [includes]. now rewrite Hs, IH.
Qed.

(** *** The decoder's states *)

Lemma land_ones_sub (b q n : N) :
  q * 2 ^ n <= b < (q + 1) * 2 ^ n -> N.land b (N.ones n) = b - q * 2 ^ n.
Proof.
  intros [Hlo Hhi]; rewrite N.land_ones; symmetry.
  apply N.mod_unique with (q := q); nia.
Qed.

Lemma initial_sound : sound initial.
Proof. now left. Qed.

Lemma between_true (lo b hi : N) : between lo b hi = true -> lo <= b <= hi.
Proof.
  unfold between; intros H; apply andb_prop in H as [H1 H2].
  apply N.leb_le in H1, H2; lia.
Qed.

(** What the handler does at the start of a sequence, by the byte. *)
Lemma lead_cases (b : N) :
  (b < 128 /\ lead b = ([b], initial))
  \/ (128 <= b
      /\ ((exists st, lead b = ([], st) /\ bytes_needed st <> 0 /\ sound st)
          \/ lead b = ([REPLACEMENT], initial))).
Proof.
  unfold lead.
  destruct (N.leb_spec b 0x7F) as [H1|H1]; [left; split; [lia | reflexivity]|].
  right; split; [lia|].
  destruct (between 0xC2 b 0xDF) eqn:B2.
  { apply between_true in B2.
    left; eexists; split; [reflexivity|]; split; [discriminate|].
    right; cbn [lower_boundary upper_boundary bytes_seen bytes_needed code_point].
    change 31 with (N.ones 5).
    rewrite (@land_ones_sub b 6 5) by (cbn; lia). cbn. lia. }
  destruct (between 0xE0 b 0xEF) eqn:B3.
  { apply between_true in B3.
    left; eexists; split; [reflexivity|]; split; [discriminate|].
    right; cbn [lower_boundary upper_boundary bytes_seen bytes_needed code_point].
    change 15 with (N.ones 4).
    rewrite (@land_ones_sub b 14 4) by (cbn; lia).
    destruct (N.eqb_spec b 0xE0), (N.eqb_spec b 0xED); cbn; lia. }
  destruct (between 0xF0 b 0xF4) eqn:B4; [|right; reflexivity].
  apply between_true in B4.
  left; eexists; split; [reflexivity|]; split; [discriminate|].
  right; cbn [lower_boundary upper_boundary bytes_seen bytes_needed code_point].
  change 7 with (N.ones 3).
  rewrite (@land_ones_sub b 30 3) by (cbn; lia).
  destruct (N.eqb_spec b 0xF0), (N.eqb_spec b 0xF4); cbn; lia.
Qed.

(** A continuation byte adds at least six bits below a code point that is
    not zero. *)
Lemma continue_ge (cp x : N) :
  cp <> 0 -> 2 ^ (N.log2 cp + 6) <= N.lor (N.shiftl cp 6) x.
Proof.
  intros Hcp.
  assert (N.lor (N.shiftl cp 6) x <> 0) as Hnz.
  { intros E; apply N.lor_eq_0_l in E; apply N.shiftl_eq_0_iff in E; contradiction. }
  apply N.log2_le_pow2; [lia|].
  rewrite N.log2_lor, <- (N.log2_shiftl cp 6 Hcp). apply N.le_max_l.
Qed.

Lemma continue_ge_64 (cp x : N) : 1 <= cp -> 64 <= N.lor (N.shiftl cp 6) x.
Proof.
  intros H; eapply N.le_trans; [|apply continue_ge; lia].
  change 64 with (2 ^ 6); apply N.pow_le_mono_r; lia.
Qed.

Lemma continue_ge_128 (cp x : N) : 2 <= cp -> 128 <= N.lor (N.shiftl cp 6) x.
Proof.
  intros H; eapply N.le_trans; [|apply continue_ge; lia].
  change 128 with (2 ^ 7); apply N.pow_le_mono_r.
  - lia.
  - assert (1 <= N.log2 cp) by (apply N.log2_le_pow2; cbn; lia). lia.
Qed.

(** What the handler does within a sequence, by the byte. *)
Lemma handler_cases (st : state) (b : N) :
  bytes_needed st <> 0 -> sound st ->
  (handler st b = (REPLACEMENT :: fst (lead b), snd (lead b))
   /\ (b < 128 \/ 128 <= b))
  \/ (128 <= b
      /\ ((exists cp, handler st b = ([cp], initial) /\ 128 <= cp)
          \/ (exists st', handler st b = ([], st')
                          /\ bytes_needed st' <> 0 /\ sound st'))).
Proof.
  intros Hn [H0 | [Hlo [Hhi [Hseen [Hlast Hzero]]]]]; [contradiction|].
  unfold handler. apply N.eqb_neq in Hn; rewrite Hn; apply N.eqb_neq in Hn.
  unfold between.
  destruct (N.leb_spec (lower_boundary st) b) as [H1|H1],
           (N.leb_spec b (upper_boundary st)) as [H2|H2]; cbn [andb negb].
  2,3,4: left; (split; [destruct (lead b); reflexivity | lia]).
  right; split; [lia|].
  set (cp := N.lor (N.shiftl (code_point st) 6) (N.land b 0x3F)).
  assert (code_point st = 0 -> 16 <= cp) as Hcp0.
  { intros E; unfold cp; rewrite E, N.shiftl_0_l, N.lor_0_l.
    change 63 with (N.ones 6).
    rewrite (@land_ones_sub b 2 6) by (cbn; specialize (Hzero E); lia).
    specialize (Hzero E); cbn; lia. }
  assert (1 <= code_point st -> 64 <= cp) as Hcp1
    by (intros; unfold cp; now apply continue_ge_64).
  assert (2 <= code_point st -> 128 <= cp) as Hcp2
    by (intros; unfold cp; now apply continue_ge_128).
  destruct (N.eqb_spec (bytes_seen st + 1) (bytes_needed st)) as [E|E].
  - left; exists cp; split; [reflexivity|]. apply Hcp2, Hlast. lia.
  - right; eexists; split; [reflexivity|].
    cbn [bytes_needed]; split; [exact Hn|].
    right; cbn [lower_boundary upper_boundary bytes_seen bytes_needed code_point].
    destruct (N.eq_dec (code_point st) 0) as [Z|Z].
    + specialize (Hcp0 Z). repeat split; lia.
    + assert (64 <= cp) by (apply Hcp1; lia). repeat split; lia.
Qed.

(** *** The decoded text against the bytes *)

Lemma mark_utf16_ascii (b : N) : b < 128 -> map mark (utf16 b) = [b].
Proof.
  intros H; rewrite utf16_BMP by lia; cbn [map]; now rewrite mark_ascii.
Qed.

Lemma mark_utf16_other (cp : N) :
  128 <= cp ->
  map mark (utf16 cp) = [marker] \/ map mark (utf16 cp) = [marker; marker].
Proof.
  intros H; unfold utf16; destruct (cp <=? 0xFFFF); cbn [map].
  - left; now rewrite mark_other.
  - right; rewrite !mark_other by lia; reflexivity.
Qed.

Lemma marks_app (out rest : list N) :
  map mark (flat_map utf16 (out ++ rest))
  = map mark (flat_map utf16 out) ++ map mark (flat_map utf16 rest).
Proof. now rewrite flat_map_app, map_app. Qed.

Lemma marks_ascii (b : N) : b < 128 -> map mark (flat_map utf16 [b]) = [b].
Proof.
  intros H; cbn [flat_map]; rewrite app_nil_r; now apply mark_utf16_ascii.
Qed.

Lemma marks_other (cp : N) :
  128 <= cp ->
  map mark (flat_map utf16 [cp]) = [marker]
  \/ map mark (flat_map utf16 [cp]) = [marker; marker].
Proof.
  intros H; cbn [flat_map]; rewrite app_nil_r; now apply mark_utf16_other.
Qed.

Lemma marks_cons_REPLACEMENT (out : list N) :
  map mark (flat_map utf16 (REPLACEMENT :: out))
  = marker :: map mark (flat_map utf16 out).
Proof. reflexivity. Qed.

(** Up to the length of the runs of markers, the decoded text is the
    bytes: an ASCII byte yields itself, and every run of other bytes
    yields at least one code unit that is not ASCII. *)
Lemma squeeze_run (bs : list byte) : forall st,
  sound st ->
  squeeze (map mark (flat_map utf16 (run st bs)))
  = squeeze (owed_marker st ++ map mark (raw bs)).
Proof.
  induction bs as [|x bs IH]; intros st Hs.
  - cbn [run raw map]; unfold owed_marker.
    destruct (bytes_needed st =? 0); reflexivity.
  - assert (squeeze (map mark (flat_map utf16 (run initial bs)))
            = squeeze (map mark (raw bs))) as IH0
      by (rewrite (IH initial initial_sound); reflexivity).
    assert (forall st', bytes_needed st' <> 0 -> sound st' ->
              squeeze (map mark (flat_map utf16 (run st' bs)))
              = squeeze (marker :: map mark (raw bs))) as IH1.
    { intros st' Hn' Hs'; rewrite (IH st' Hs'); unfold owed_marker.
      apply N.eqb_neq in Hn'; now rewrite Hn'. }
    clear IH.
    change (raw (x :: bs)) with (Byte.to_N x :: raw bs).
    cbn [run map]; unfold owed_marker.
    set (b := Byte.to_N x).
    destruct (N.eqb_spec (bytes_needed st) 0) as [E0|E0]; cbn [app].
    + assert (handler st b = lead b) as ->
        by (unfold handler; apply N.eqb_eq in E0; now rewrite E0).
      destruct (lead_cases b) as [[Hb ->] | [Hb [[st' [-> [Hn' Hs']]] | ->]]];
        rewrite marks_app.
      * rewrite (marks_ascii Hb), (mark_ascii Hb); cbn [app].
        now apply squeeze_cons_congr.
      * cbn [flat_map map app]. rewrite (mark_other Hb). now apply IH1.
      * rewrite marks_cons_REPLACEMENT, (mark_other Hb); cbn [flat_map map app].
        now apply squeeze_cons_congr.
    + destruct (handler_cases b E0 Hs)
        as [[-> Hb] | [Hb [[cp [-> Hcp]] | [st' [-> [Hn' Hs']]]]]];
        rewrite marks_app.
      * rewrite marks_cons_REPLACEMENT.
        destruct (lead_cases b) as [[Hb' ->] | [Hb' [[st' [-> [Hn' Hs']]] | ->]]];
          cbn [fst snd].
        -- rewrite (marks_ascii Hb'), (mark_ascii Hb'); cbn [app].
           do 2 apply squeeze_cons_congr. exact IH0.
        -- cbn [flat_map map app]. rewrite (mark_other Hb').
           apply squeeze_cons_congr. now apply IH1.
        -- rewrite marks_cons_REPLACEMENT, (mark_other Hb'); cbn [flat_map map app].
           do 2 apply squeeze_cons_congr. exact IH0.
      * rewrite (mark_other Hb), squeeze_marker_twice.
        destruct (marks_other Hcp) as [-> | ->]; cbn [app].
        -- now apply squeeze_cons_congr.
        -- rewrite squeeze_marker_twice. now apply squeeze_cons_congr.
      * cbn [flat_map map app]. rewrite (mark_other Hb), squeeze_marker_twice.
        now apply IH1.
Qed.

(** Dropping a byte-order mark does not change where an ASCII text
    occurs. *)
Lemma includes_strip_BOM (n : jsstring) (cps : list N) :
  ascii_text n ->
  includes n (flat_map utf16 (strip_BOM cps)) = includes n (flat_map utf16 cps).
Proof.
  intros Hn; destruct cps as [|c cps]; [reflexivity|]; cbn [strip_BOM].
  destruct (N.eqb_spec c 0xFEFF) as [->|Hc]; [|reflexivity].
  change (flat_map utf16 (0xFEFF :: cps)) with (0xFEFF :: flat_map utf16 cps).
  cbn [includes].
  destruct Hn as [|a n Ha Hn]; [now destruct (flat_map utf16 cps)|].
  cbn [startsWith].
  assert ((a =? 0xFEFF) = false) as -> by (apply N.eqb_neq; lia).
  reflexivity.
Qed.

(** An ASCII text occurs in the decoded text of a buffer exactly when its
    bytes occur in the buffer. *)
Lemma includes_decode (n : jsstring) (bytes : list byte) :
  ascii_text n ->
  includes n (decode bytes) = includes n (raw bytes).
Proof.
  intros Hn; unfold decode.
  rewrite (includes_strip_BOM _ Hn).
  rewrite <- (includes_mark (flat_map utf16 (run initial bytes)) Hn).
  rewrite <- (includes_squeeze (map mark (flat_map utf16 (run initial bytes))) Hn).
  rewrite (squeeze_run bytes initial_sound).
  change (owed_marker initial) with (@nil N); cbn [app].
  rewrite (includes_squeeze _ Hn).
  apply (includes_mark (raw bytes) Hn).
Qed.

(** The decoded text of ASCII bytes is the bytes. *)
Lemma run_ascii (bs : list byte) :
  ascii_text (raw bs) -> run initial bs = raw bs.
Proof.
  induction bs as [|x bs IH]; intros H; [reflexivity|].
  change (raw (x :: bs)) with (Byte.to_N x :: raw bs) in *.
  inversion H as [|? ? Hx Hbs]; subst.
  cbn [run].
  assert (handler initial (Byte.to_N x) = ([Byte.to_N x], initial)) as ->.
  { change (handler initial (Byte.to_N x)) with (lead (Byte.to_N x)).
    destruct (lead_cases (Byte.to_N x)) as [[_ E] | [Hge _]]; [exact E | lia]. }
  cbn [app]; now rewrite (IH Hbs).
Qed.

Lemma flat_map_utf16_ascii (s : jsstring) :
  ascii_text s -> flat_map utf16 s = s.
Proof.
  induction 1 as [|c s Hc _ IH]; [reflexivity|].
  cbn [flat_map]; rewrite IH, utf16_BMP by lia; reflexivity.
Qed.

Lemma decode_ascii (bs : list byte) :
  ascii_text (raw bs) -> decode bs = raw bs.
Proof.
  intros H; unfold decode; rewrite (run_ascii bs H).
  assert (strip_BOM (raw bs) = raw bs) as ->.
  { destruct H as [|c s Hc _]; [reflexivity|]; cbn [strip_BOM].
    assert ((c =? 0xFEFF) = false) as -> by (apply N.eqb_neq; lia).
    reflexivity. }
  now apply flat_map_utf16_ascii.
Qed.

Lemma js_ascii_Encrypt : ascii_text (js "/Encrypt").
Proof. repeat constructor. Qed.

Lemma js_ascii_MarkInfo : ascii_text (js "/MarkInfo").
Proof. repeat constructor. Qed.

Lemma js_ascii_PDF : ascii_text (js "%PDF").
Proof. repeat constructor. Qed.

(** X1: the two probes of [extractMetadata] on the decoded text are
    searches of the raw bytes: the text contains ["/Encrypt"] (and
    likewise ["/MarkInfo"]) exactly when the bytes of that marker occur in
    the buffer, whatever else the buffer holds and however the decoder
    replaces what is not UTF-8. *)
Theorem probes_search_raw_bytes (bytes : list byte) :
  includes (js "/Encrypt") (decode bytes) = includes (js "/Encrypt") (raw bytes)
  /\ includes (js "/MarkInfo") (decode bytes)
     = includes (js "/MarkInfo") (raw bytes).
Proof.
  split; apply includes_decode; [apply js_ascii_Encrypt | apply js_ascii_MarkInfo].
Qed.

(** X2: a file is reported as a PDF exactly when the bytes of ["%PDF"]
    occur within its first eight bytes. *)
Theorem isPDF_searches_first_eight_bytes (bytes : list byte) :
  fst (Viewer.detectPDFHeader bytes)
  = includes (js "%PDF") (raw (firstn 8 bytes)).
Proof.
  unfold Viewer.detectPDFHeader; cbn [fst]; unfold slice0.
  apply includes_decode, js_ascii_PDF.
Qed.

(** X3: a buffer that starts with ["%PDF-"], one digit, a dot and one
    digit is reported as a PDF of that version, whatever follows: the
    probe sees eight bytes, so further digits of the minor version are
    cut off. *)
Theorem detectPDFHeader_one_digit_version (major minor : byte) (rest : list byte) :
  isDigit (Byte.to_N major) = true ->
  isDigit (Byte.to_N minor) = true ->
  Viewer.detectPDFHeader
    (bytes_of "%PDF-" ++ [major] ++ bytes_of "." ++ [minor] ++ rest)
  = (true,
     Viewer.JString ([Byte.to_N major] ++ js "." ++ [Byte.to_N minor])).
Proof.
  intros HM Hm; unfold Viewer.detectPDFHeader, slice0.
  change (firstn 8 (bytes_of "%PDF-" ++ [major] ++ bytes_of "." ++ [minor] ++ rest))
    with (bytes_of "%PDF-" ++ [major] ++ bytes_of "." ++ [minor]).
  assert (Byte.to_N major < 128 /\ Byte.to_N minor < 128) as [HM' Hm'].
  { unfold isDigit in HM, Hm.
    apply andb_prop in HM as [_ HM], Hm as [_ Hm].
    apply N.leb_le in HM, Hm; lia. }
  rewrite decode_ascii.
  2:{ change (raw (bytes_of "%PDF-" ++ [major] ++ bytes_of "." ++ [minor]))
        with (js "%PDF-" ++ [Byte.to_N major] ++ js "." ++ [Byte.to_N minor]).
      repeat constructor; assumption. }
  change (raw (bytes_of "%PDF-" ++ [major] ++ bytes_of "." ++ [minor]))
    with (js "%PDF-" ++ [Byte.to_N major] ++ js "." ++ [Byte.to_N minor]).
  cbn -[isDigit]. rewrite HM. change (isDigit 46) with false.
  cbn -[isDigit]. rewrite Hm. reflexivity.
Qed.

Lemma detectPDFHeader_one_digit_version_witness :
  Viewer.detectPDFHeader
    (bytes_of "%PDF-" ++ [x31] ++ bytes_of "." ++ [x31] ++ bytes_of "0 binary")
  = (true, Viewer.JString ([Byte.to_N x31] ++ js "." ++ [Byte.to_N x31])).
Proof.
  apply (@detectPDFHeader_one_digit_version x31 x31 (bytes_of "0 binary"));
    reflexivity.
Defined.

End RawProbe.

(** ** Extractions, continued *)

Section ExtractionOutcomes.

Import Viewer Spec.

(** X4: a successful extraction ends in the same state whatever state it
    started in: not loading, no error, nothing pending, the dialog hidden,
    the retry state empty, and a result with the attributes of the file
    and a ["Page Count"] entry for the number of pages the library
    reports.  It succeeds when the file can be read, the library loads it
    with the password given and returns its metadata, and a password was
    given if the bytes of ["/Encrypt"] occur in the file. *)
Theorem successful_extraction_state (W : World) (file : File)
    (password : option jsstring) (bytes : list byte) (numPages : N)
    (info : option (list (jsstring * InfoValue))) (s : State) :
  arrayBuffer W file = ReadResolves bytes ->
  (includes (js "/Encrypt") (raw bytes) = true -> truthy_opt password = true) ->
  getDocument W bytes password = LoadResolves numPages (MetadataResolves info) ->
  let s' := extract W file password s in
  isLoading s' = false
  /\ error s' = None
  /\ currentFile s' = None
  /\ showPasswordDialog s' = false
  /\ passwordError s' = None
  /\ attempts s' = 0%N
  /\ exists m,
       metadata s' = Some m
       /\ fileName m = name file
       /\ fileSize m = Formatter.formatFileSize (size file)
       /\ fileType m = type file
       /\ dict_get (js "Page Count") (infoDict m)
          = Some (Number_toString numPages ++ js " pages").
Proof.
  intros Hread Hpw Hload; cbv zeta.
  rewrite <- (includes_decode bytes js_ascii_Encrypt) in Hpw.
  unfold extract, extractMetadata; rewrite Hread.
  assert (includes (js "/Encrypt") (TextDecoder.decode bytes)
          && negb (truthy_opt password) = false) as ->.
  { destruct (includes (js "/Encrypt") (TextDecoder.decode bytes));
      [rewrite Hpw by reflexivity|]; reflexivity. }
  destruct (detectPDFHeader bytes) as [probe_isPDF probe_version].
  rewrite Hload; cbn.
  repeat (split; [reflexivity|]).
  eexists; split; [reflexivity|]; cbn.
  repeat (split; [reflexivity|]).
  apply build_infoDict_computed.
Qed.

Lemma successful_extraction_state_witness :
  let s' := extract Examples.world Examples.locked_pdf (Some (js "secret"))
              (extract Examples.world Examples.locked_pdf (Some (js "guess"))
                 (extract Examples.world Examples.locked_pdf None initial)) in
  isLoading s' = false
  /\ error s' = None
  /\ currentFile s' = None
  /\ showPasswordDialog s' = false
  /\ passwordError s' = None
  /\ attempts s' = 0%N
  /\ exists m,
       metadata s' = Some m
       /\ fileName m = name Examples.locked_pdf
       /\ fileSize m = Formatter.formatFileSize (size Examples.locked_pdf)
       /\ fileType m = type Examples.locked_pdf
       /\ dict_get (js "Page Count") (infoDict m)
          = Some (Number_toString 3 ++ js " pages").
Proof.
  apply (@successful_extraction_state Examples.world Examples.locked_pdf
           (Some (js "secret")) Examples.locked_bytes 3
           (Some [(js "Title", InfoString (js "Locked"));
                  (js "CreationDate", InfoString (js "D:20230115103000-05'00'"))]));
    reflexivity.
Defined.

(** X5: an extraction without password ends at the password prompt in
    the same way whether the bytes of ["/Encrypt"] occur in the file (the
    library is then not called) or they do not and the library refuses to
    load the file with a [PasswordException]: the file is pending, the
    dialog is shown, nothing is loading, the top-level error is cleared,
    and the prompt's error, the attempt counter and the result are left
    as they were. *)
Theorem password_needed_either_way (W : World) (file : File)
    (password : option jsstring) (bytes : list byte) (s : State) :
  arrayBuffer W file = ReadResolves bytes ->
  truthy_opt password = false ->
  includes (js "/Encrypt") (raw bytes) = true
  \/ (exists e, getDocument W bytes password = LoadRejects e
                /\ is_PasswordException e = true) ->
  extract W file password s = awaiting_password file s.
Proof.
  intros Hread Hpw Hwhy.
  unfold extract, extractMetadata; rewrite Hread, Hpw; cbn [negb].
  rewrite (includes_decode bytes js_ascii_Encrypt).
  destruct (includes (js "/Encrypt") (raw bytes)) eqn:Henc; cbn [andb].
  - reflexivity.
  - destruct Hwhy as [Hwhy | [e [Hload Hexn]]]; [discriminate|].
    destruct (detectPDFHeader bytes) as [probe_isPDF probe_version].
    rewrite Hload; unfold inner_catch; rewrite Hexn, Hpw. reflexivity.
Qed.

Lemma password_needed_either_way_witness :
  extract Examples.world Examples.locked_pdf None initial
  = awaiting_password Examples.locked_pdf initial
  /\ extract Examples.quiet_world Examples.plain_pdf None initial
     = awaiting_password Examples.plain_pdf initial.
Proof.
  split.
  - apply (@password_needed_either_way Examples.world Examples.locked_pdf None
             Examples.locked_bytes initial); try reflexivity.
    left; reflexivity.
  - apply (@password_needed_either_way Examples.quiet_world Examples.plain_pdf
             None Examples.plain_bytes initial); try reflexivity.
    right; exists Examples.PasswordException; split; reflexivity.
Defined.

(** One wrong password for the pending file. *)
Lemma submit_wrong_password (W : World) (file : File) (bytes : list byte)
    (pw : jsstring) (s : State) :
  currentFile s = Some file ->
  arrayBuffer W file = ReadResolves bytes ->
  wrong_password W bytes pw ->
  submit_password W pw s
  = mkViewer (metadata s) false None (Some file) (showPasswordDialog s)
             (Some (js "Invalid password. Please try again."))
             (attempts s + 1).
Proof.
  intros Hfile Hread [Hpw [e [Hload Hexn]]].
  assert (truthy pw = true) as Ht by (destruct pw; [contradiction | reflexivity]).
  unfold submit_password, handlePasswordSubmit; rewrite Hfile.
  unfold extractMetadata; rewrite Hread; cbn [truthy_opt]; rewrite Ht, andb_false_r.
  destruct (detectPDFHeader bytes) as [probe_isPDF probe_version].
  rewrite Hload; unfold inner_catch, outer_catch; rewrite Hexn.
  cbn [truthy_opt]; rewrite Ht. cbn. now rewrite Hfile.
Qed.

(** X6: wrong passwords are only counted.  After any number of wrong
    passwords submitted for the pending file, the file is still pending,
    the dialog is still shown, the counter has grown by their number and
    the result is as it was; after the first of them the prompt shows
    ["Invalid password. Please try again."].  No number of failures ends
    the prompt. *)
Theorem wrong_passwords_are_counted (W : World) (file : File)
    (bytes : list byte) (pws : list jsstring) (s : State) :
  currentFile s = Some file ->
  showPasswordDialog s = true ->
  arrayBuffer W file = ReadResolves bytes ->
  Forall (wrong_password W bytes) pws ->
  let s' := submit_passwords W pws s in
  currentFile s' = Some file
  /\ showPasswordDialog s' = true
  /\ attempts s' = (attempts s + N.of_nat (length pws))%N
  /\ metadata s' = metadata s
  /\ (pws <> [] ->
      passwordError s' = Some (js "Invalid password. Please try again.")).
Proof.
  intros Hfile Hshown Hread Hall; cbv zeta; revert s Hfile Hshown.
  induction Hall as [|pw pws Hpw _ IH]; intros s Hfile Hshown.
  - cbn; repeat split; auto; [lia | congruence].
  - unfold submit_passwords; cbn [fold_left].
    rewrite (submit_wrong_password s Hfile Hread Hpw).
    set (s1 := mkViewer _ _ _ _ _ _ _).
    destruct (IH s1 eq_refl Hshown) as [H1 [H2 [H3 [H4 H5]]]].
    fold (submit_passwords W pws s1).
    repeat split; auto.
    + rewrite H3; cbn [attempts s1 length]; lia.
    + intros _; destruct pws as [|pw' pws']; [reflexivity|].
      apply H5; discriminate.
Qed.

Lemma wrong_passwords_are_counted_witness :
  let s := extract Examples.world Examples.locked_pdf None initial in
  let s' := submit_passwords Examples.world [js "guess"; js "1234"; js "guess"] s in
  currentFile s' = Some Examples.locked_pdf
  /\ showPasswordDialog s' = true
  /\ attempts s' = (attempts s + N.of_nat 3)%N
  /\ metadata s' = metadata s
  /\ ([js "guess"; js "1234"; js "guess"] <> [] ->
      passwordError s' = Some (js "Invalid password. Please try again.")).
Proof.
  apply (@wrong_passwords_are_counted Examples.world Examples.locked_pdf
           Examples.locked_bytes [js "guess"; js "1234"; js "guess"]);
    try reflexivity.
  repeat constructor; try discriminate;
    exists Examples.PasswordException; split; reflexivity.
Defined.

(** X7: running the same extraction again changes nothing, unless it
    fails on the password: in every other outcome the state after the
    second run is the state after the first. *)
Theorem extraction_twice (W : World) (file : File)
    (password : option jsstring) (s : State) :
  outcome W file password <> InvalidPassword ->
  extract W file password (extract W file password s)
  = extract W file password s.
Proof.
  unfold extract, outcome, library_failure, extractMetadata, inner_catch,
    outer_catch, finally_block.
  destruct (arrayBuffer W file) as [bytes | read_err].
  2:{ intros _; destruct (truthy_opt password); reflexivity. }
  destruct (includes (js "/Encrypt") (TextDecoder.decode bytes));
    destruct (truthy_opt password); cbn [andb negb];
    try (intros _; reflexivity);
    destruct (detectPDFHeader bytes) as [probe_isPDF probe_version];
    (destruct (getDocument W bytes password)
       as [numPages [info | meta_err] | load_err];
     [ | destruct (is_PasswordException meta_err)
       | destruct (is_PasswordException load_err) ]);
    intros H; try reflexivity; contradiction.
Qed.

Lemma extraction_twice_witness :
  extract Examples.world Examples.broken_pdf None
    (extract Examples.world Examples.broken_pdf None initial)
  = extract Examples.world Examples.broken_pdf None initial.
Proof.
  apply (@extraction_twice Examples.world Examples.broken_pdf None initial).
  vm_compute; discriminate.
Defined.

End ExtractionOutcomes.

(** ** The components together, continued *)

Section ApplicationRuns.

Import Viewer Spec App.

Lemma nth_error_middle (A : Type) (l : list A) : forall i t,
  nth_error l i = Some t -> l = firstn i l ++ t :: skipn (S i) l.
Proof.
  induction l as [|a l IH]; intros [|i] t H; try discriminate.
  - injection H as ->; reflexivity.
  - cbn [firstn skipn app]; f_equal; apply IH, H.
Qed.

(** *** The loading indicator *)

Lemma settles_cons (seg : list Action) (rest : list (list Action)) :
  settles rest -> settles (seg :: rest).
Proof. destruct rest; [contradiction | auto]. Qed.

(** An extraction has a first stretch and at least one more, and its last
    stretch turns the indicator off. *)
Lemma extractMetadata_settles (W : World) (file : File)
    (password : option jsstring) :
  exists rest,
    extractMetadata W file password = [setIsLoading true; setError None] :: rest
    /\ settles rest.
Proof.
  unfold extractMetadata, inner_catch, outer_catch, finally_block.
  destruct (arrayBuffer W file) as [bytes | read_err].
  2:{ destruct (truthy_opt password); eexists; (split; [reflexivity|]);
      intros s; destruct s; reflexivity. }
  destruct (includes (js "/Encrypt") (TextDecoder.decode bytes));
    destruct (truthy_opt password); cbn [andb negb];
    try destruct (detectPDFHeader bytes) as [probe_isPDF probe_version];
    try (destruct (getDocument W bytes password)
           as [numPages [info | meta_err] | load_err];
         [ | destruct (is_PasswordException meta_err)
           | destruct (is_PasswordException load_err) ]);
    eexists; (split; [reflexivity|]);
    cbn [settles]; intros s; destruct s; reflexivity.
Qed.

Lemma advance_loading (segs : list (list Action)) (o : Origin)
    (v : Viewer.State) (d : Dialog.State) (before after : list Task) :
  settles segs ->
  Forall (fun t => settles (remaining t)) before ->
  Forall (fun t => settles (remaining t)) after ->
  (snd (advance segs o v d before after) = [] ->
   isLoading (fst (fst (advance segs o v d before after))) = false)
  /\ Forall (fun t => settles (remaining t))
            (snd (advance segs o v d before after)).
Proof.
  intros Hsegs Hb Ha; unfold advance.
  destruct segs as [|seg [|seg' rest]]; cbn [fst snd]; [contradiction| |].
  - split; [intros _; apply Hsegs | apply Forall_app; auto].
  - split.
    + intros E; apply app_eq_nil in E as [_ E]; discriminate.
    + apply Forall_app; split; [exact Hb|].
      constructor; [exact Hsegs | exact Ha].
Qed.

Lemma step_loading (sys : Sys) (ev : Event) :
  loading_ok sys -> loading_ok (step sys ev).
Proof.
  intros Hsys; pose proof Hsys as [Hidle Hts].
  destruct ev as [file W | value | | W | | i]; cbn [step].
  - destruct (extractMetadata_settles W file None) as [rest [E Hrest]].
    pose proof (@advance_loading (handleDrop W file) FromDropZone (view sys)
                  (dialog sys) (tasks sys) []) as H.
    unfold handleDrop in *; rewrite E in *.
    specialize (H (@settles_cons _ _ Hrest) Hts (Forall_nil _)).
    destruct (advance _ _ _ _ _ _) as [[v d] ts]; exact H.
  - destruct (showPasswordDialog (view sys)); exact Hsys.
  - destruct (showPasswordDialog (view sys)); exact Hsys.
  - destruct (showPasswordDialog (view sys)
              && negb (Dialog.submit_disabled (dialog sys))); [|exact Hsys].
    cbn [Dialog.handleSubmit_begin]; unfold handlePasswordSubmit.
    destruct (currentFile (view sys)) as [file|].
    + destruct (extractMetadata_settles W file (Some (Dialog.password (dialog sys))))
        as [rest [E Hrest]].
      rewrite E.
      pose proof (@advance_loading
                    ([setIsLoading true; setError None] :: rest) FromPrompt
                    (view sys)
                    (Dialog.mkDialog (Dialog.password (dialog sys))
                       (Dialog.showPassword (dialog sys)) true)
                    (tasks sys) []
                    (@settles_cons _ _ Hrest) Hts (Forall_nil _)) as H.
      destruct (advance _ _ _ _ _ _) as [[v d] ts]; exact H.
    + cbn [advance]; rewrite app_nil_r; exact Hsys.
  - destruct (showPasswordDialog (view sys)
              && negb (Dialog.cancel_disabled (dialog sys))); [|exact Hsys].
    split; [|exact Hts].
    intros E; cbn [tasks] in E; destruct (view sys); cbn; exact (Hidle E).
  - destruct (nth_error (tasks sys) i) as [t|] eqn:Et; [|exact Hsys].
    pose proof (proj1 (Forall_forall _ (tasks sys)) Hts) as Hin.
    assert (settles (remaining t)) as Ht.
    { apply (Hin t). eapply nth_error_In; eauto. }
    assert (Forall (fun t => settles (remaining t)) (firstn i (tasks sys))) as Hb.
    { apply Forall_forall; intros x Hx; apply Hin.
      rewrite <- (firstn_skipn i (tasks sys)); apply in_or_app; now left. }
    assert (Forall (fun t => settles (remaining t)) (skipn (S i) (tasks sys))) as Ha.
    { apply Forall_forall; intros x Hx; apply Hin.
      rewrite <- (firstn_skipn (S i) (tasks sys)); apply in_or_app; now right. }
    pose proof (@advance_loading (remaining t) (origin t) (view sys) (dialog sys)
                  _ _ Ht Hb Ha) as H.
    destruct (advance _ _ _ _ _ _) as [[v d] ts]; exact H.
Qed.

Lemma run_loading (evs : list Event) : loading_ok (run evs).
Proof.
  unfold run.
  assert (forall sys, loading_ok sys -> loading_ok (fold_left step evs sys)) as H.
  { induction evs as [|ev evs IH]; intros sys Hs; cbn; [exact Hs|].
    apply IH, step_loading, Hs. }
  apply H; split; [reflexivity | constructor].
Qed.

(** X8: in every state the viewer reaches with no extraction suspended,
    the loading indicator is off: whichever way an extraction ends, its
    last stretch runs the [finally] block. *)
Theorem loading_indicator_settles (evs : list Event) :
  tasks (run evs) = [] -> isLoading (view (run evs)) = false.
Proof. exact (proj1 (run_loading evs)). Qed.

Lemma loading_indicator_settles_witness :
  isLoading (view (run Examples.wrong_password_session)) = false.
Proof.
  apply (loading_indicator_settles Examples.wrong_password_session).
  reflexivity.
Defined.

(** *** Submissions of the prompt *)

Lemma count_app (l1 l2 : list Task) :
  length (filter from_prompt (l1 ++ l2))
  = (length (filter from_prompt l1) + length (filter from_prompt l2))%nat.
Proof. now rewrite filter_app, length_app. Qed.

Lemma count_cons (t : Task) (l : list Task) :
  length (filter from_prompt (t :: l))
  = ((if from_prompt t then 1 else 0) + length (filter from_prompt l))%nat.
Proof. cbn [filter]; destruct (from_prompt t); reflexivity. Qed.

(** The suspended extractions of the prompt after a task has run its
    next stretch. *)
Lemma advance_count (segs : list (list Action)) (o : Origin)
    (v : Viewer.State) (d : Dialog.State) (before after : list Task) :
  let r := advance segs o v d before after in
  (exists seg seg' rest,
     segs = seg :: seg' :: rest
     /\ snd (fst r) = d
     /\ snd r = before ++ mkTask (seg' :: rest) o :: after)
  \/ ((segs = [] \/ exists seg, segs = [seg])
      /\ snd (fst r) = completed o d
      /\ snd r = before ++ after).
Proof.
  cbv zeta; unfold advance; destruct segs as [|seg [|seg' rest]]; cbn [fst snd].
  - right; auto.
  - right; split; [right; now exists seg | auto].
  - left; now exists seg, seg', rest.
Qed.

Lemma step_prompt_tasks (sys : Sys) (ev : Event) :
  prompt_tasks sys = submitting_count (dialog sys) ->
  prompt_tasks (step sys ev) = submitting_count (dialog (step sys ev)).
Proof.
  unfold prompt_tasks; intros Hsys.
  destruct ev as [file W | value | | W | | i]; cbn [step].
  - destruct (advance_count (handleDrop W file) FromDropZone (view sys)
                (dialog sys) (tasks sys) [])
      as [[seg [seg' [rest [_ [Hd Hts]]]]] | [_ [Hd Hts]]];
      destruct (advance _ _ _ _ _ _) as [[v d] ts]; cbn [fst snd] in *;
      subst d ts; cbn [tasks dialog completed];
      rewrite count_app, ?count_cons; cbn; lia.
  - destruct (showPasswordDialog (view sys)); exact Hsys.
  - destruct (showPasswordDialog (view sys)); exact Hsys.
  - destruct (showPasswordDialog (view sys)); cbn [andb]; [|exact Hsys].
    destruct (Dialog.submit_disabled (dialog sys)) eqn:Hdis; cbn [negb]; [exact Hsys|].
    assert (Dialog.isSubmitting (dialog sys) = false) as Hsub.
    { unfold Dialog.submit_disabled in Hdis.
      now apply orb_false_elim in Hdis as [_ Hdis]. }
    unfold submitting_count in Hsys; rewrite Hsub in Hsys.
    cbn [Dialog.handleSubmit_begin].
    destruct (advance_count
                (handlePasswordSubmit W (view sys) (Dialog.password (dialog sys)))
                FromPrompt (view sys)
                (Dialog.mkDialog (Dialog.password (dialog sys))
                   (Dialog.showPassword (dialog sys)) true)
                (tasks sys) [])
      as [[seg [seg' [rest [_ [Hd Hts]]]]] | [_ [Hd Hts]]];
      destruct (advance _ _ _ _ _ _) as [[v d] ts]; cbn [fst snd] in *;
      subst d ts; cbn [tasks dialog completed];
      rewrite count_app, ?count_cons; cbn; lia.
  - destruct (showPasswordDialog (view sys)
              && negb (Dialog.cancel_disabled (dialog sys))); exact Hsys.
  - destruct (nth_error (tasks sys) i) as [t|] eqn:Et; [|exact Hsys].
    rewrite (nth_error_middle _ _ Et), count_app, count_cons in Hsys.
    destruct (advance_count (remaining t) (origin t) (view sys) (dialog sys)
                (firstn i (tasks sys)) (skipn (S i) (tasks sys)))
      as [[seg [seg' [rest [_ [Hd Hts]]]]] | [_ [Hd Hts]]];
      destruct (advance _ _ _ _ _ _) as [[v d] ts]; cbn [fst snd] in *;
      subst d ts; cbn [tasks dialog];
      rewrite count_app, ?count_cons.
    + unfold from_prompt in *; cbn [origin]. exact Hsys.
    + unfold from_prompt, submitting_count in *.
      destruct (origin t); cbn [completed Dialog.handleSubmit_end Dialog.isSubmitting].
      * exact Hsys.
      * destruct (Dialog.isSubmitting (dialog sys)); lia.
Qed.

Lemma run_prompt_tasks (evs : list Event) :
  prompt_tasks (run evs) = submitting_count (dialog (run evs)).
Proof.
  unfold run.
  assert (forall sys, prompt_tasks sys = submitting_count (dialog sys) ->
            prompt_tasks (fold_left step evs sys)
            = submitting_count (dialog (fold_left step evs sys))) as H.
  { induction evs as [|ev evs IH]; intros sys Hs; cbn; [exact Hs|].
    apply IH, step_prompt_tasks, Hs. }
  apply H; reflexivity.
Qed.

(** X9: submissions of the prompt never overlap.  In every state the
    application reaches, at most one extraction started by the prompt is
    suspended, and there is one exactly while the dialog is marked as
    submitting (which disables both of its buttons' actions that could
    start or cancel one). *)
Theorem one_submission_in_flight (evs : list Event) :
  (prompt_tasks (run evs) <= 1)%nat
  /\ (prompt_tasks (run evs) = 1%nat
      <-> Dialog.isSubmitting (dialog (run evs)) = true)
  /\ (Dialog.isSubmitting (dialog (run evs)) = true ->
      forall W, step (run evs) (SubmitForm W) = run evs
                /\ step (run evs) ClickCancel = run evs).
Proof.
  pose proof (run_prompt_tasks evs) as H; unfold submitting_count in H.
  destruct (Dialog.isSubmitting (dialog (run evs))) eqn:E; rewrite H.
  - split; [lia | split; [tauto|]].
    intros _ W; cbn [step]; unfold Dialog.submit_disabled, Dialog.cancel_disabled.
    rewrite E, orb_true_r; cbn [negb]; now rewrite andb_false_r.
  - split; [lia | split; [split; [lia | discriminate] | discriminate]].
Qed.

Lemma one_submission_in_flight_witness :
  let evs := [DropFile Examples.locked_pdf Examples.world; Resume 0;
              TypePassword (js "guess"); SubmitForm Examples.world] in
  (prompt_tasks (run evs) <= 1)%nat
  /\ (prompt_tasks (run evs) = 1%nat
      <-> Dialog.isSubmitting (dialog (run evs)) = true)
  /\ (Dialog.isSubmitting (dialog (run evs)) = true ->
      forall W, step (run evs) (SubmitForm W) = run evs
                /\ step (run evs) ClickCancel = run evs).
Proof.
  exact (one_submission_in_flight
           [DropFile Examples.locked_pdf Examples.world; Resume 0;
            TypePassword (js "guess"); SubmitForm Examples.world]).
Defined.

(** X10: whenever the form of the dialog can be submitted, a file is
    pending, so the submission always starts an extraction of that file
    with the password entered: the test [if (currentFile)] of
    [handlePasswordSubmit] never fails there.  The dialog is then marked
    as submitting and the extraction is suspended at its first
    [await]. *)
Theorem submission_starts_extraction (evs : list Event) (W : World) :
  showPasswordDialog (view (run evs)) = true ->
  Dialog.submit_disabled (dialog (run evs)) = false ->
  exists file,
    currentFile (view (run evs)) = Some file
    /\ calls (step (run evs) (SubmitForm W))
       = calls (run evs)
         ++ [mkCall file (Some (Dialog.password (dialog (run evs)))) FromPrompt]
    /\ Dialog.isSubmitting (dialog (step (run evs) (SubmitForm W))) = true
    /\ prompt_tasks (step (run evs) (SubmitForm W)) = 1%nat.
Proof.
  intros Hshown Hen.
  destruct (run_ok evs) as [Hinv _].
  destruct (currentFile (view (run evs))) as [file|] eqn:Hfile.
  2:{ exfalso. apply Hinv in Hshown. contradiction. }
  exists file; split; [reflexivity|].
  assert (Dialog.isSubmitting (dialog (step (run evs) (SubmitForm W))) = true) as Hsub.
  { cbn [step]; rewrite Hshown, Hen; cbn [andb negb Dialog.handleSubmit_begin].
    unfold handlePasswordSubmit; rewrite Hfile.
    destruct (extractMetadata_settles W file
                (Some (Dialog.password (dialog (run evs))))) as [rest [-> Hrest]].
    destruct rest as [|seg rest]; [contradiction|]. reflexivity. }
  split; [|split; [exact Hsub|]].
  - cbn [step]; rewrite Hshown, Hen; cbn [andb negb Dialog.handleSubmit_begin].
    destruct (advance _ _ _ _ _ _) as [[v d] ts]; cbn [calls].
    now rewrite Hfile.
  - assert (step (run evs) (SubmitForm W) = run (evs ++ [SubmitForm W])) as E
      by (unfold run; now rewrite fold_left_app).
    rewrite E in *.
    rewrite run_prompt_tasks; unfold submitting_count.
    now rewrite Hsub.
Qed.

Lemma submission_starts_extraction_witness :
  let evs := [DropFile Examples.locked_pdf Examples.world; Resume 0;
              TypePassword (js "guess")] in
  exists file,
    currentFile (view (run evs)) = Some file
    /\ calls (step (run evs) (SubmitForm Examples.world))
       = calls (run evs)
         ++ [mkCall file (Some (Dialog.password (dialog (run evs)))) FromPrompt]
    /\ Dialog.isSubmitting (dialog (step (run evs) (SubmitForm Examples.world)))
       = true
    /\ prompt_tasks (step (run evs) (SubmitForm Examples.world)) = 1%nat.
Proof.
  apply (@submission_starts_extraction
           [DropFile Examples.locked_pdf Examples.world; Resume 0;
            TypePassword (js "guess")] Examples.world); reflexivity.
Defined.

End ApplicationRuns.

(** ** The dictionary and its rendering *)

Section Dictionary.

Import Viewer Spec.



Lemma dict_get_In (k v : jsstring) (d : PDFInfoDictionary) :
  dict_get k d = Some v -> In (k, v) d.
Proof.
  induction d as [|[k' v'] d IH]; cbn; [discriminate|].
  destruct (JS.eqb k' k) eqn:E.
  - intros [= ->]; apply eqb_eq in E; subst; now left.
  - intros H; right; auto.
Qed.





(** *** What is rendered of a result *)

Lemma truthy_app_r (a b : jsstring) : truthy b = true -> truthy (a ++ b) = true.
Proof. destruct a; [auto | reflexivity]. Qed.

Lemma formatFileSize_truthy (bytes : N) :
  truthy (Formatter.formatFileSize bytes) = true.
Proof.
  unfold Formatter.formatFileSize; destruct (bytes =? 0)%N; [reflexivity|].
  apply truthy_app_r; reflexivity.
Qed.

Lemma MetadataGrid_In (data : list (jsstring * jsstring)) (k v : jsstring) :
  In (k, v) (MetadataGrid data) <-> In (k, v) data /\ v <> [].
Proof.
  unfold MetadataGrid; rewrite filter_In; cbn [snd].
  now rewrite truthy_nonempty.
Qed.

(** X12: what is rendered of the result of a successful extraction.  The
    grid of basic information always has the rows ["File Size"] and
    ["PDF Version"], and the row ["File Type"] exactly when the platform
    reports a type for the file.  The grid of the dictionary is always
    rendered (the dictionary is never empty) and always has the rows
    ["Page Count"], ["Security Status"] and ["Accessibility"]. *)
Theorem successful_result_rendered (W : World) (file : File)
    (password : option jsstring) (m : PDFMetadata) (s : State) :
  In (setMetadata m) (setter_calls W file password) ->
  metadata s = Some m ->
  exists basic info,
    metadata_grids s = Some (basic, Some info)
    /\ In (js "File Size", Formatter.formatFileSize (size file)) basic
    /\ (exists v, In (js "PDF Version", v) basic)
    /\ (In (js "File Type", type file) basic <-> type file <> [])
    /\ (exists v, In (js "Page Count", v) info)
    /\ (exists v, In (js "Security Status", v) info)
    /\ (exists v, In (js "Accessibility", v) info).
Proof.
  intros Hset Hm.
  apply setMetadata_only_on_success in Hset
    as [bytes [numPages [info [_ [_ [_ E]]]]]].
  destruct (build_infoDict_computed (platform W) file (TextDecoder.decode bytes)
              (includes (js "/Encrypt") (TextDecoder.decode bytes))
              numPages info) as [Hs [Ha Hp]].
  unfold metadata_grids; rewrite Hm.
  assert (infoDict m
          = build_infoDict (platform W) file (TextDecoder.decode bytes)
              (includes (js "/Encrypt") (TextDecoder.decode bytes))
              numPages info) as Ed by (rewrite E; reflexivity).
  rewrite <- Ed in Hs, Ha, Hp.
  destruct (infoDict m) as [|entry d] eqn:Ei; [discriminate|].
  eexists; eexists; split; [reflexivity|].
  split; [|split; [|split; [|split; [|split]]]].
  - apply MetadataGrid_In; split.
    + rewrite E; cbn; auto.
    + apply truthy_nonempty, formatFileSize_truthy.
  - eexists; apply MetadataGrid_In; split.
    + cbn; do 3 right; left; reflexivity.
    + apply truthy_nonempty.
      destruct (isPDF m); [apply truthy_app_r|]; reflexivity.
  - rewrite MetadataGrid_In; rewrite E; cbn; split.
    + tauto.
    + intros H; split; [auto | exact H].
  - eexists; apply MetadataGrid_In; split; [apply dict_get_In, Hp|].
    apply truthy_nonempty, truthy_app_r; reflexivity.
  - eexists; apply MetadataGrid_In; split; [apply dict_get_In, Hs|].
    destruct (includes (js "/Encrypt") (TextDecoder.decode bytes)); discriminate.
  - eexists; apply MetadataGrid_In; split; [apply dict_get_In, Ha|].
    destruct (includes (js "/MarkInfo") (TextDecoder.decode bytes)); discriminate.
Qed.

Lemma successful_result_rendered_witness :
  exists basic info,
    metadata_grids (extract Examples.world Examples.locked_pdf
                      (Some (js "secret")) initial)
    = Some (basic, Some info)
    /\ In (js "File Size", Formatter.formatFileSize (size Examples.locked_pdf)) basic
    /\ (exists v, In (js "PDF Version", v) basic)
    /\ (In (js "File Type", type Examples.locked_pdf) basic
        <-> type Examples.locked_pdf <> [])
    /\ (exists v, In (js "Page Count", v) info)
    /\ (exists v, In (js "Security Status", v) info)
    /\ (exists v, In (js "Accessibility", v) info).
Proof.
  apply (@successful_result_rendered Examples.world Examples.locked_pdf
           (Some (js "secret")) Examples.locked_result).
  - vm_compute. do 2 right. left. reflexivity.
  - reflexivity.
Defined.

End Dictionary.

(** ** The formatters, continued *)

Section FormatterMore.

Import Formatter Spec.
Local Open Scope N_scope.

(** X13: a size that is a whole number [m] of a unit, with
    [1 <= m < 1024], prints as that number and the unit, without a
    fraction; in particular every size below 1024 prints as its number
    of bytes. *)
Theorem formatFileSize_whole_units (m i : N) :
  1 <= m < 1024 -> i < 4 ->
  formatFileSize (m * k ^ i) = Number_toString m ++ js " " ++ sizes_at i
  /\ In (sizes_at i) sizes.
Proof.
  intros Hm Hi.
  assert (0 < k ^ i) as Hpos.
  { rewrite k_pow; apply N.neq_0_lt_0, N.pow_nonzero; lia. }
  assert (floor_log (m * k ^ i) k = i) as Hlog.
  { apply floor_log_unique; split; [nia|].
    rewrite N.pow_add_r, N.pow_1_r; unfold k at 3; nia. }
  split.
  - unfold formatFileSize.
    assert ((m * k ^ i =? 0) = false) as -> by (apply N.eqb_neq; nia).
    rewrite Hlog, parseFloat_toFixed2.
    assert (toFixed2_hundredths (m * k ^ i) (k ^ i) = 100 * m) as ->.
    { unfold toFixed2_hundredths; symmetry.
      apply N.div_unique with (r := k ^ i); nia. }
    unfold hundredths_toString.
    rewrite (N.mul_comm 100 m), N.div_mul by lia.
    rewrite N.Div0.mod_mul; cbn [N.eqb app]. now rewrite app_nil_r.
  - unfold sizes_at.
    assert (i = 0 \/ i = 1 \/ i = 2 \/ i = 3) as [-> | [-> | [-> | ->]]] by lia;
      cbn; tauto.
Qed.

Lemma formatFileSize_whole_units_witness :
  formatFileSize (512 * k ^ 2) = Number_toString 512 ++ js " " ++ sizes_at 2
  /\ In (sizes_at 2) sizes.
Proof.
  apply (@formatFileSize_whole_units 512 2); vm_compute; try split; congruence.
Defined.

(** *** Dates that match *)

Lemma expect_prefix (lit rest : jsstring) : expect lit (lit ++ rest) = Some rest.
Proof. now apply expect_app. Qed.

Lemma digits_field (n : nat) (f rest : jsstring) :
  length f = n -> forallb isDigit f = true ->
  digits n (f ++ rest) = Some (f, rest).
Proof. intros <- H; now apply digits_complete. Qed.

(** The pattern at the head of a date, with what follows the seconds. *)
Lemma date_here_fields (y mo d h mi se rest : jsstring) :
  date_fields y mo d h mi se ->
  date_here (pdf_date y mo d h mi se ++ rest)
  = Some (mkDateMatch y mo d h mi se (timezone_here rest)).
Proof.
  intros [Ly [Lmo [Ld [Lh [Lmi [Lse [Dy [Dmo [Dd [Dh [Dmi Dse]]]]]]]]]]].
  unfold date_here, pdf_date.
  rewrite <- !app_assoc, expect_prefix.
  rewrite (@digits_field _ y _ Ly Dy); cbv beta iota.
  rewrite (@digits_field _ mo _ Lmo Dmo); cbv beta iota.
  rewrite (@digits_field _ d _ Ld Dd); cbv beta iota.
  rewrite (@digits_field _ h _ Lh Dh); cbv beta iota.
  rewrite (@digits_field _ mi _ Lmi Dmi); cbv beta iota.
  rewrite (@digits_field _ se _ Lse Dse); cbv beta iota.
  reflexivity.
Qed.

Lemma date_match_fields (y mo d h mi se rest : jsstring) :
  date_fields y mo d h mi se ->
  date_match (pdf_date y mo d h mi se ++ rest)
  = Some (mkDateMatch y mo d h mi se (timezone_here rest)).
Proof.
  intros H.
  assert (forall s, date_match s
                    = match date_here s with
                      | Some m => Some m
                      | None => match s with
                                | [] => None
                                | _ :: t => date_match t
                                end
                      end) as Hunfold by (intros []; reflexivity).
  now rewrite Hunfold, (date_here_fields rest H).
Qed.

Lemma two_digits (f : jsstring) :
  length f = 2%nat -> forallb isDigit f = true ->
  exists a b, f = [a; b] /\ isDigit a = true /\ isDigit b = true.
Proof.
  destruct f as [|a [|b [|c f]]]; try discriminate; intros _ H.
  cbn in H; rewrite andb_true_r in H; apply andb_prop in H as [Ha Hb].
  now exists a, b.
Qed.

Lemma digit_not_quote (c : N) : isDigit c = true -> (c =? 39) = false.
Proof.
  unfold isDigit; intros H; apply andb_prop in H as [H _].
  apply N.leb_le in H; apply N.eqb_neq; lia.
Qed.

(** A complete offset after the seconds, and its ISO form. *)
Lemma offset_here (sign : N) (hh mm rest : jsstring) :
  offset_fields sign hh mm ->
  timezone_here ([sign] ++ hh ++ js "'" ++ mm ++ js "'" ++ rest)
  = Some ([sign] ++ hh ++ js "'" ++ mm ++ js "'")
  /\ timezone_iso ([sign] ++ hh ++ js "'" ++ mm ++ js "'")
     = [sign] ++ hh ++ js ":" ++ mm.
Proof.
  intros [Hsign [Lh [Lm [Dh Dm]]]].
  destruct (@two_digits hh Lh Dh) as [h1 [h2 [-> [Hh1 Hh2]]]].
  destruct (@two_digits mm Lm Dm) as [m1 [m2 [-> [Hm1 Hm2]]]].
  split.
  - assert (((sign =? 45) || (sign =? 43)) = true) as Hs
      by (destruct Hsign as [-> | ->]; reflexivity).
    cbn -[isDigit N.eqb]. rewrite Hs.
    cbn -[isDigit]. rewrite Hh1, Hh2.
    cbn -[isDigit]. rewrite Hm1, Hm2.
    reflexivity.
  - unfold timezone_iso; cbn -[N.eqb].
    rewrite (@digit_not_quote h1 Hh1), (@digit_not_quote h2 Hh2),
      (@digit_not_quote m1 Hm1), (@digit_not_quote m2 Hm2).
    destruct Hsign as [-> | ->]; reflexivity.
Qed.

(** X14: a date [D:YYYYMMDDHHmmSS] is handed to the platform as
    [YYYY-MM-DDTHH:mm:SS] followed by its offset: an offset [+HH'mm'] or
    [-HH'mm'] becomes [+HH:mm] or [-HH:mm]; when what follows the seconds
    is no complete offset (nothing, a ["Z"], an offset without its last
    apostrophe) the date is read as UTC.  Whatever follows a matched date
    is dropped. *)
Theorem formatPDFDate_iso (P : Platform) (y mo d h mi se : jsstring) :
  date_fields y mo d h mi se ->
  (forall rest,
     timezone_here rest = None ->
     formatPDFDate P (pdf_date y mo d h mi se ++ rest)
     = Date_of_string_toLocaleString P (iso_date y mo d h mi se ++ js "Z"))
  /\ (forall sign hh mm rest,
        offset_fields sign hh mm ->
        formatPDFDate P (pdf_date y mo d h mi se
                         ++ [sign] ++ hh ++ js "'" ++ mm ++ js "'" ++ rest)
        = Date_of_string_toLocaleString P
            (iso_date y mo d h mi se ++ [sign] ++ hh ++ js ":" ++ mm)).
Proof.
  intros H; split.
  - intros rest Hr; unfold formatPDFDate.
    rewrite (date_match_fields rest H); cbn [year month day hour minute second timezone].
    rewrite Hr; unfold iso_date; now rewrite <- !app_assoc.
  - intros sign hh mm rest Ho; unfold formatPDFDate.
    rewrite (date_match_fields _ H); cbn [year month day hour minute second timezone].
    destruct (offset_here rest Ho) as [-> ->]; cbn [truthy app].
    unfold iso_date; now rewrite <- !app_assoc.
Qed.

Lemma formatPDFDate_iso_witness :
  formatPDFDate sample_platform
    (pdf_date (js "2023") (js "01") (js "15") (js "10") (js "30") (js "00")
     ++ js "+05'00")
  = Date_of_string_toLocaleString sample_platform
      (iso_date (js "2023") (js "01") (js "15") (js "10") (js "30") (js "00")
       ++ js "Z")
  /\ formatPDFDate sample_platform
       (pdf_date (js "2023") (js "01") (js "15") (js "10") (js "30") (js "00")
        ++ [45%N] ++ js "05" ++ js "'" ++ js "00" ++ js "'" ++ js " and more")
     = Date_of_string_toLocaleString sample_platform
         (iso_date (js "2023") (js "01") (js "15") (js "10") (js "30") (js "00")
          ++ [45%N] ++ js "05" ++ js ":" ++ js "00").
Proof.
  assert (date_fields (js "2023") (js "01") (js "15") (js "10") (js "30") (js "00"))
    as H by (repeat split; reflexivity).
  split.
  - apply (proj1 (@formatPDFDate_iso sample_platform _ _ _ _ _ _ H)).
    reflexivity.
  - apply (proj2 (@formatPDFDate_iso sample_platform _ _ _ _ _ _ H)).
    repeat split; try reflexivity. right; reflexivity.
Defined.

End FormatterMore.

(** ** Cancelling *)

Section Cancelling.

Import Viewer Spec App.

(** X16: cancelling the dialog, when its cancel button is enabled, empties
    the retry state at once (no pending file, dialog hidden, no prompt
    error, no attempts) and touches nothing else: the result, the
    top-level error and the loading indicator stay, and the suspended
    extractions are not cancelled.  Afterwards the form cannot be
    submitted.  While a submission is in flight the button is disabled
    and cancelling does nothing. *)
Theorem cancel_clears_retry_state (sys : Sys) :
  (showPasswordDialog (view sys) = true ->
   Dialog.isSubmitting (dialog sys) = false ->
   let sys' := step sys ClickCancel in
   currentFile (view sys') = None
   /\ showPasswordDialog (view sys') = false
   /\ passwordError (view sys') = None
   /\ attempts (view sys') = 0%N
   /\ metadata (view sys') = metadata (view sys)
   /\ error (view sys') = error (view sys)
   /\ isLoading (view sys') = isLoading (view sys)
   /\ tasks sys' = tasks sys
   /\ dialog sys' = dialog sys
   /\ forall W, step sys' (SubmitForm W) = sys')
  /\ (Dialog.isSubmitting (dialog sys) = true -> step sys ClickCancel = sys).
Proof.
  split.
  - intros Hshown Hsub; cbv zeta; cbn [step].
    unfold Dialog.cancel_disabled; rewrite Hshown, Hsub; cbn [andb negb].
    destruct sys as [v d ts cs]; destruct v; cbn.
    repeat split; reflexivity.
  - intros Hsub; cbn [step]; unfold Dialog.cancel_disabled; rewrite Hsub.
    cbn [negb]; now rewrite andb_false_r.
Qed.

Lemma cancel_clears_retry_state_witness :
  let sys := run [DropFile Examples.locked_pdf Examples.world; Resume 0;
                  TypePassword (js "guess"); SubmitForm Examples.world;
                  Resume 0; Resume 0] in
  let sys' := step sys ClickCancel in
  currentFile (view sys') = None
  /\ showPasswordDialog (view sys') = false
  /\ passwordError (view sys') = None
  /\ attempts (view sys') = 0%N
  /\ metadata (view sys') = metadata (view sys)
  /\ error (view sys') = error (view sys)
  /\ isLoading (view sys') = isLoading (view sys)
  /\ tasks sys' = tasks sys
  /\ dialog sys' = dialog sys
  /\ forall W, step sys' (SubmitForm W) = sys'.
Proof.
  apply (proj1 (cancel_clears_retry_state
                  (run [DropFile Examples.locked_pdf Examples.world; Resume 0;
                        TypePassword (js "guess"); SubmitForm Examples.world;
                        Resume 0; Resume 0]))); reflexivity.
Defined.

End Cancelling.
